(** * dca.py: the DCA grid calculator and its strategy store

    A shallow embedding of [DCABot] (src/dca.py).

    [calculate_strategy] is duck-typed Python: it only adds, subtracts,
    multiplies, divides and rounds its arguments.  The embedding is therefore
    written once over an interface [Numeric] and instantiated twice:

    - [float]: IEEE 754 binary64 (what the Streamlit form passes in), on the
      executable specification [SpecFloat] of the standard library;
    - [Fraction]: exact rationals in lowest terms (what the same function
      computes when it is called with [fractions.Fraction] arguments).

    Facts that follow from the shape of the loop alone are proved for every
    instance; facts that need the laws of arithmetic are proved for
    [Fraction], where they hold exactly. *)

From Stdlib Require Import ZArith QArith Qcanon List String Lia Lqa.
From Stdlib Require Import DecimalString.
From Stdlib.Floats Require Import SpecFloat.
From stdpp Require Import base option list strings.

Local Open Scope Z_scope.

(** ** Exceptions *)

Inductive exn := ZeroDivisionError.

Inductive result (A : Type) :=
  | Ok (a : A)
  | Raise (e : exn).
Arguments Ok {A} a.
Arguments Raise {A} e.

#[export] Instance result_ret : MRet result := @Ok.
#[export] Instance result_bind : MBind result := fun A B f m =>
  match m with
  | Ok a => f a
  | Raise e => Raise e
  end.

(** ** The arithmetic the function relies on *)

Class Numeric (T : Type) := {
  (** an [int] operand of a mixed operation ([x / 100], [1 - x]) *)
  of_int : Z -> T;
  add : T -> T -> T;
  sub : T -> T -> T;
  mul : T -> T -> T;
  (** [x / y] for a divisor that is not zero *)
  quot : T -> T -> T;
  (** the test [y == 0] that makes [x / y] raise *)
  is_zero : T -> bool;
  (** [round(x, 2)] *)
  round2 : T -> T;
  (** [x < y]; the function never compares, the order only serves to say
      what a valid parameter is *)
  ltb : T -> T -> bool;
  hundred_not_zero : is_zero (of_int 100) = false;
  positive_not_zero : forall x, ltb (of_int 0) x = true -> is_zero x = false
}.

Declare Scope num_scope.
Delimit Scope num_scope with num.
Infix "+" := add : num_scope.
Infix "-" := sub : num_scope.
Infix "*" := mul : num_scope.

(** [x / y] of Python *)
Definition truediv `{Numeric T} (x y : T) : result T :=
  if is_zero y then Raise ZeroDivisionError else Ok (quot x y).
Infix "/" := truediv : num_scope.

(** [range(lo, hi)] *)
Definition range (lo hi : Z) : list Z :=
  (fun k => lo + Z.of_nat k) <$> seq 0 (Z.to_nat (hi - lo)).

(** [for i in l: body] over the local variables [S] *)
Fixpoint for_each {S : Type} (body : Z -> S -> result S) (l : list Z) (s : S)
  : result S :=
  match l with
  | [] => Ok s
  | i :: l' => s' ← body i s; for_each body l' s'
  end.

(** [f"SO #{i}"] *)
Definition so_label (i : Z) : string :=
  String.append "SO #" (NilZero.string_of_int (Z.to_int i)).

(** ** The grid *)

(** One row of the grid: the dict appended to [strategy]. *)
Record row (T : Type) := Row {
  Step : string;
  Buy_Price : T;
  Order_Size : T;
  Total_Investment : T;
  Avg_Price : T;
  TP_Target : T;
  Drop_pct : T
}.
Arguments Row {T}.
Arguments Step {T}.
Arguments Buy_Price {T}.
Arguments Order_Size {T}.
Arguments Total_Investment {T}.
Arguments Avg_Price {T}.
Arguments TP_Target {T}.
Arguments Drop_pct {T}.

(** The local variables of [calculate_strategy] that live across the loop. *)
Record locals (T : Type) := Locals {
  strategy : list (row T);
  cumulative_spent : T;
  cumulative_volume : T;
  last_price : T;
  last_order_size : T;
  current_deviation : T
}.
Arguments Locals {T}.
Arguments strategy {T}.
Arguments cumulative_spent {T}.
Arguments cumulative_volume {T}.
Arguments last_price {T}.
Arguments last_order_size {T}.
Arguments current_deviation {T}.

Section Calculator.
Context `{Numeric T}.
Local Open Scope num_scope.

Variables (base_price base_order : T) (safety_orders : Z)
          (price_step volume_scale step_scale tp_pct : T).

(** Lines 39-58: the body of the loop, at index [i]. *)
Definition safety_order (i : Z) (st : locals T) : result (locals T) :=
  d ← current_deviation st / of_int 100;
  let buy_price := last_price st * (of_int 1 - d) in
  let order_size := last_order_size st * volume_scale in
  let cumulative_spent := cumulative_spent st + order_size in
  v ← order_size / buy_price;
  let cumulative_volume := cumulative_volume st + v in
  avg_price ← cumulative_spent / cumulative_volume;
  t ← tp_pct / of_int 100;
  r ← (base_price - buy_price) / base_price;
  Ok {| strategy := strategy st ++ [
          {| Step := so_label i;
             Buy_Price := round2 buy_price;
             Order_Size := round2 order_size;
             Total_Investment := round2 cumulative_spent;
             Avg_Price := round2 avg_price;
             TP_Target := round2 (avg_price * (of_int 1 + t));
             Drop_pct := round2 (r * of_int 100) |} ];
        cumulative_spent := cumulative_spent;
        cumulative_volume := cumulative_volume;
        last_price := buy_price;
        last_order_size := order_size;
        current_deviation := current_deviation st * step_scale |}.

(** Lines 19-35: the initial values and the Base row.  The literal [0.0]
    of the Base row is [of_int 0]. *)
Definition base_order_step : result (locals T) :=
  v ← base_order / base_price;
  t ← tp_pct / of_int 100;
  Ok {| strategy := [
          {| Step := "Base";
             Buy_Price := round2 base_price;
             Order_Size := round2 base_order;
             Total_Investment := round2 base_order;
             Avg_Price := round2 base_price;
             TP_Target := round2 (base_price * (of_int 1 + t));
             Drop_pct := of_int 0 |} ];
        cumulative_spent := base_order;
        cumulative_volume := v;
        last_price := base_price;
        last_order_size := base_order;
        current_deviation := price_step |}.

Definition calculate_strategy : result (list (row T)) :=
  st0 ← base_order_step;
  st ← for_each safety_order (range 1 (safety_orders + 1)) st0;
  Ok (strategy st).

(** *** The unrounded quantities, stage by stage

    What the loop holds in its variables after [k] passes, written without
    the exceptions: [quot] stands for a division whose divisor has been
    checked.  [calculate_strategy_run] below ties it to the code. *)
Record accum := Accum {
  spent : T;       (* cumulative_spent *)
  bought : T;      (* cumulative_volume *)
  price : T;       (* last_price *)
  size : T;        (* last_order_size *)
  deviation : T    (* current_deviation *)
}.

Definition accum0 : accum :=
  {| spent := base_order;
     bought := quot base_order base_price;
     price := base_price;
     size := base_order;
     deviation := price_step |}.

Definition next_accum (a : accum) : accum :=
  let buy_price := price a * (of_int 1 - quot (deviation a) (of_int 100)) in
  let order_size := size a * volume_scale in
  {| spent := spent a + order_size;
     bought := bought a + quot order_size buy_price;
     price := buy_price;
     size := order_size;
     deviation := deviation a * step_scale |}.

Fixpoint accum_at (k : nat) : accum :=
  match k with
  | O => accum0
  | S k' => next_accum (accum_at k')
  end.

(** The unrounded average price after [k] safety orders *)
Definition average (a : accum) : T := quot (spent a) (bought a).

Definition take_profit (p : T) : T :=
  p * (of_int 1 + quot tp_pct (of_int 100)).

Definition base_row : row T :=
  {| Step := "Base";
     Buy_Price := round2 base_price;
     Order_Size := round2 base_order;
     Total_Investment := round2 base_order;
     Avg_Price := round2 base_price;
     TP_Target := round2 (take_profit base_price);
     Drop_pct := of_int 0 |}.

Definition so_row (k : nat) : row T :=
  let a := accum_at k in
  {| Step := so_label (Z.of_nat k);
     Buy_Price := round2 (price a);
     Order_Size := round2 (size a);
     Total_Investment := round2 (spent a);
     Avg_Price := round2 (average a);
     TP_Target := round2 (take_profit (average a));
     Drop_pct :=
       round2 (quot (base_price - price a) base_price * of_int 100) |}.

Definition grid (n : nat) : list (row T) := base_row :: (so_row <$> seq 1 n).

(** Line 40, unrolled: the unrounded order size of stage [k] *)
Definition order_size_at (k : nat) : T :=
  Nat.iter k (fun order_size => order_size * volume_scale) base_order.

(** Line 58, unrolled: the deviation applied at stage [k + 1] *)
Definition deviation_at (k : nat) : T :=
  Nat.iter k (fun d => d * step_scale) price_step.

(** Line 39, unrolled: the unrounded buy price of stage [k] *)
Fixpoint buy_price_at (k : nat) : T :=
  match k with
  | O => base_price
  | S k' =>
      buy_price_at k' * (of_int 1 - quot (deviation_at k') (of_int 100))
  end.

(** The unrounded volume bought at stage [k] *)
Definition volume_at (k : nat) : T :=
  quot (order_size_at k) (buy_price_at k).

(** [x + l0 + l1 + ...], added in this order: an accumulator that starts
    at [x] and takes [+=] for each element of [l] *)
Definition sum_onto (x : T) (l : list T) : T := fold_left add l x.

(** Lines 20 and 42: the money spent up to stage [k] *)
Definition spent_at (k : nat) : T :=
  sum_onto (order_size_at 0) (order_size_at <$> seq 1 k).

(** Lines 21 and 43: the volume bought up to stage [k] *)
Definition bought_at (k : nat) : T :=
  sum_onto (volume_at 0) (volume_at <$> seq 1 k).

(** Stage [k] divides by zero: its buy price or the volume bought up to it
    is zero. *)
Definition zero_divisor_at (k : nat) : bool :=
  is_zero (price (accum_at k)) || is_zero (bought (accum_at k)).

(** Some division of the run over [n] safety orders has a zero divisor. *)
Definition zero_divisor (n : nat) : bool :=
  is_zero base_price || existsb zero_divisor_at (seq 1 n).

(** Line 44, unrolled: the unrounded average price at stage [k] *)
Definition average_at (k : nat) : T := quot (spent_at k) (bought_at k).

(** Every deviation applied by [n] safety orders is below 100%. *)
Definition deviations_below_100 (n : nat) : bool :=
  forallb (fun k => ltb (deviation_at k) (of_int 100)) (seq 0 n).

(** The preconditions of the specification: [base_price > 0],
    [base_order > 0] and [safety_orders >= 0]. *)
Definition valid : Prop :=
  ltb (of_int 0) base_price = true /\
  ltb (of_int 0) base_order = true /\
  (0 <= safety_orders)%Z.

Definition locals_at (k : nat) : locals T :=
  let a := accum_at k in
  {| strategy := grid k;
     cumulative_spent := spent a;
     cumulative_volume := bought a;
     last_price := price a;
     last_order_size := size a;
     current_deviation := deviation a |}.

End Calculator.

Arguments accum : clear implicits.

(** ** Rounding to two decimals *)

(** The integer nearest to [a / b], ties to the even one: what [round] does
    to a [Fraction], and what [round(x, 2)] does to the decimal expansion of
    a [float] (dtoa mode 3 followed by strtod). *)
Definition round_half_even (a : Z) (b : positive) : Z :=
  let q := a / Zpos b in
  let r := a mod Zpos b in
  match 2 * r ?= Zpos b with
  | Lt => q
  | Gt => q + 1
  | Eq => if Z.even q then q else q + 1
  end.

(** ** Instance: IEEE 754 binary64 *)

Definition float := spec_float.

Module Float.

Definition prec : Z := 53.
Definition emax : Z := 1024.

Definition add : float -> float -> float := SFadd prec emax.
Definition sub : float -> float -> float := SFsub prec emax.
Definition mul : float -> float -> float := SFmul prec emax.
Definition quot : float -> float -> float := SFdiv prec emax.
Definition ltb : float -> float -> bool := SFltb.

(** [float(z)] for an [int] that is small enough not to overflow *)
Definition of_int (z : Z) : float := binary_normalize prec emax z 0 false.

(** The double nearest to [n / d], with the sign [s]: the division of
    [SpecFloat] rounds correctly whatever the size of the mantissas. *)
Definition nearest (s : bool) (n : Z) (d : positive) : float :=
  match n with
  | Zpos p => SFdiv prec emax (S754_finite s p 0) (S754_finite false d 0)
  | _ => S754_zero s
  end.

(** The float written [n / 10^k] in decimal, as a literal is read *)
Definition dec (n : Z) (k : nat) : float :=
  nearest (n <? 0) (Z.abs n) (Z.to_pos (10 ^ Z.of_nat k)).

Definition is_zero (x : float) : bool :=
  match x with
  | S754_zero _ => true
  | _ => false
  end.

(** [float.__round__] with [ndigits = 2]: infinities and NaN round to
    themselves, a finite float to the double nearest to its decimal
    expansion cut after two places, ties to even, with its sign kept. *)
Definition round2 (x : float) : float :=
  match x with
  | S754_finite s m e =>
      let n :=
        match e with
        | Zneg k => round_half_even (Zpos m * 100) (2 ^ k)%positive
        | _ => Zpos m * 100 * 2 ^ e
        end in
      nearest s n 100
  | _ => x
  end.

(** Neither an infinity nor NaN *)
Definition is_finite (x : float) : bool :=
  match x with
  | S754_zero _ | S754_finite _ _ _ => true
  | _ => false
  end.

Lemma float_hundred_not_zero : is_zero (of_int 100) = false.
Proof. reflexivity. Qed.

Lemma float_positive_not_zero x :
  ltb (of_int 0) x = true -> is_zero x = false.
Proof. by destruct x as [[]|[]| |[]]. Qed.

End Float.

#[export] Instance float_numeric : Numeric float := {|
  of_int := Float.of_int;
  add := Float.add;
  sub := Float.sub;
  mul := Float.mul;
  quot := Float.quot;
  is_zero := Float.is_zero;
  round2 := Float.round2;
  ltb := Float.ltb;
  hundred_not_zero := Float.float_hundred_not_zero;
  positive_not_zero := Float.float_positive_not_zero
|}.

(** ** Instance: exact rationals in lowest terms *)

Definition Fraction := Qc.

Module Frac.

Definition of_int (z : Z) : Fraction := Q2Qc (inject_Z z).

(** The fraction [n / d] *)
Definition frac (n : Z) (d : positive) : Fraction := Q2Qc (n # d).

Definition is_zero (x : Fraction) : bool := Qnum (this x) =? 0.

Definition ltb (x y : Fraction) : bool :=
  match (x ?= y)%Qc with
  | Lt => true
  | _ => false
  end.

(** [Fraction.__round__] with [ndigits = 2]:
    [Fraction(round(self * 100), 100)] *)
Definition round2 (x : Fraction) : Fraction :=
  let y := this (x * of_int 100)%Qc in
  frac (round_half_even (Qnum y) (Qden y)) 100.

Lemma frac_hundred_not_zero : is_zero (of_int 100) = false.
Proof. reflexivity. Qed.

Lemma is_zero_spec x : is_zero x = true <-> x = 0%Qc.
Proof.
  unfold is_zero. rewrite Z.eqb_eq. split.
  - intros Hn. apply Qc_is_canon. unfold Qeq. simpl. lia.
  - by intros ->.
Qed.

Lemma ltb_spec x y : ltb x y = true <-> (x < y)%Qc.
Proof.
  unfold ltb. rewrite Qclt_alt. by destruct (x ?= y)%Qc.
Qed.

Lemma frac_positive_not_zero x :
  ltb (of_int 0) x = true -> is_zero x = false.
Proof.
  intros Hlt%ltb_spec. destruct (is_zero x) eqn:Hz; [|done].
  apply is_zero_spec in Hz. subst x. by apply Qclt_not_eq in Hlt.
Qed.

End Frac.

#[export] Instance fraction_numeric : Numeric Fraction := {|
  of_int := Frac.of_int;
  add := Qcplus;
  sub := Qcminus;
  mul := Qcmult;
  quot := Qcdiv;
  is_zero := Frac.is_zero;
  round2 := Frac.round2;
  ltb := Frac.ltb;
  hundred_not_zero := Frac.frac_hundred_not_zero;
  positive_not_zero := Frac.frac_positive_not_zero
|}.

(** ** The strategy store

    [DCABot] keeps no store in memory: every method opens
    [dca_strategies.json], parses it whole with [json.load] and, when it
    changes something, writes it back whole with [json.dump].  The content
    of the file is the state; [datetime.now()] is an argument. *)

Record parameters (T : Type) := Parameters {
  p_base_price : T;
  p_base_order : T;
  p_safety_orders : Z;
  p_price_step : T;
  p_volume_scale : T;
  p_step_scale : T;
  p_tp_pct : T
}.

Record saved (T : Type) := Saved {
  timestamp : string;
  params : parameters T;
  snapshot : list (row T)
}.
Arguments Saved {T}.

(** *** What the file can hold *)

(** A JSON value as [json.load] returns it *)
#[warnings="-register-all"] Inductive json :=
  | JNull
  | JBool (b : bool)
  | JInt (z : Z)
  | JFloat (x : float)
  | JString (s : string)
  | JArray (elements : list json)
  | JObject (members : list (string * json)).

(** A Python [dict] with string keys: the items in insertion order.  The
    keys of a dict are distinct. *)
Definition dict (V : Type) : Type := list (string * V).

Section Dict.
Context {V : Type}.

(** [d.get(k)] *)
Fixpoint dict_get (k : string) (d : dict V) : option V :=
  match d with
  | [] => None
  | (k', v) :: d' => if decide (k' = k) then Some v else dict_get k d'
  end.

(** [k in d] *)
Definition dict_in (k : string) (d : dict V) : bool :=
  bool_decide (is_Some (dict_get k d)).

(** [d[k] = v]: a key that is there keeps its place, a new one goes last. *)
Fixpoint dict_set (k : string) (v : V) (d : dict V) : dict V :=
  match d with
  | [] => [(k, v)]
  | (k', v') :: d' =>
      if decide (k' = k) then (k, v) :: d' else (k', v') :: dict_set k v d'
  end.

(** [del d[k]], for a key that is there *)
Definition dict_del (k : string) (d : dict V) : dict V :=
  filter (B:=list (string * V)) (fun item => item.1 <> k) d.

(** [list(d.keys())] *)
Definition dict_keys (d : dict V) : list string :=
  fst <$> (d : list (string * V)).

End Dict.

(** A member of the top-level object: what [save_strategy] writes under a
    name, or any other JSON value. *)
Inductive entry (T : Type) :=
  | Strategy (s : saved T)
  | Foreign (v : json).
Arguments Strategy {T} s.
Arguments Foreign {T} v.

(** The top-level object *)
Abbreviation store T := (dict (entry T)).

(** A JSON document that is not an object *)
Inductive other_json :=
  | TopNull
  | TopBool (b : bool)
  | TopInt (z : Z)
  | TopFloat (x : float)
  | TopString (s : string)
  | TopArray (elements : list json).

(** What [json.load] returns *)
Inductive document (T : Type) :=
  | Object (data : store T)
  | Other (v : other_json).
Arguments Object {T} data.
Arguments Other {T} v.

(** The configuration file, as a method finds it: no file at the path;
    or a regular file that the process may read and write, holding bytes
    that are not text in the encoding of [open], text that is not JSON, a
    JSON document that is not an object, or a JSON object. *)
Inductive file (T : Type) :=
  | Missing
  | Undecodable
  | Unreadable
  | NotObject (v : other_json)
  | Json (data : store T).
Arguments Missing {T}.
Arguments Undecodable {T}.
Arguments Unreadable {T}.
Arguments NotObject {T} v.
Arguments Json {T} data.

(** What a method of the bot or a pass of the page can raise *)
Inductive error :=
  | Arithmetic (e : exn)
  | FileNotFoundError
  | UnicodeDecodeError
  | JSONDecodeError
  | TypeError
  | KeyError.

Inductive outcome (A : Type) :=
  | Returns (a : A)
  | Raises (e : error).
Arguments Returns {A} a.
Arguments Raises {A} e.

#[export] Instance outcome_ret : MRet outcome := @Returns.
#[export] Instance outcome_bind : MBind outcome := fun A B f m =>
  match m with
  | Returns a => f a
  | Raises e => Raises e
  end.

(** *** The statements of the methods on what was loaded *)

Section Items.
Context {T : Type}.

(** [name in data]: a key of a dict, an element of a list, a substring of
    a string; the other values are not containers. *)
Definition contains (name : string) (data : document T) : outcome bool :=
  match data with
  | Object d => Returns (dict_in name d)
  | Other (TopArray elements) =>
      Returns
        (existsb
           (fun e =>
              match e with
              | JString s => bool_decide (s = name)
              | _ => false
              end)
           elements)
  | Other (TopString s) =>
      Returns (bool_decide (is_Some (String.index 0 name s)))
  | Other _ => Raises TypeError
  end.

(** [data[name]] *)
Definition getitem (name : string) (data : document T) : outcome (entry T) :=
  match data with
  | Object d =>
      match dict_get name d with
      | Some e => Returns e
      | None => Raises KeyError
      end
  | Other _ => Raises TypeError
  end.

(** [data[name] = value] *)
Definition setitem (name : string) (value : entry T) (data : document T)
  : outcome (document T) :=
  match data with
  | Object d => Returns (Object (dict_set name value d))
  | Other _ => Raises TypeError
  end.

(** [del data[name]] *)
Definition delitem (name : string) (data : document T)
  : outcome (document T) :=
  match data with
  | Object d =>
      if dict_in name d then Returns (Object (dict_del name d))
      else Raises KeyError
  | Other _ => Raises TypeError
  end.

End Items.

(** *** The methods *)

Module DCABot.
Section Methods.
Context {T : Type}.

(** [with open(self.config_file, 'r') as f: data = json.load(f)] *)
Definition read (f : file T) : outcome (document T) :=
  match f with
  | Missing => Raises FileNotFoundError
  | Undecodable => Raises UnicodeDecodeError
  | Unreadable => Raises JSONDecodeError
  | NotObject v => Returns (Other v)
  | Json data => Returns (Object data)
  end.

(** [with open(self.config_file, 'w') as f: json.dump(data, f, indent=4)] *)
Definition write (data : document T) : file T :=
  match data with
  | Object d => Json d
  | Other v => NotObject v
  end.



(** Lines 62-73: the file afterwards *)
Definition save_strategy (now name : string) (p : parameters T)
    (g : list (row T)) (f : file T) : outcome (file T) :=
  data ← read f;
  data' ← setitem name (Strategy (Saved now p g)) data;
  Returns (write data').

(** Lines 75-83: the value returned and the file afterwards; the file is
    written back only when the name was found. *)
Definition delete_strategy (name : string) (f : file T)
  : outcome (bool * file T) :=
  data ← read f;
  found ← contains name data;
  if (found : bool) then
    data' ← delitem name data;
    Returns (true, write data')
  else Returns (false, f).

(** Lines 85-90: the two exceptions named by the [except] clause are
    caught, any other goes through. *)
Definition load_all_strategies (f : file T) : outcome (document T) :=
  match read f with
  | Raises FileNotFoundError | Raises JSONDecodeError => Returns (Object [])
  | r => r
  end.

End Methods.
End DCABot.

(** ** Scenario A of the specification

    [Float.dec n k] is the float written [n / 10^k] in decimal:
    [Float.dec 15 1] is [1.5]. *)

Definition scenario_A : result (list (row float)) :=
  calculate_strategy (Float.dec 50000 0) (Float.dec 100 0) 2 (Float.dec 2 0)
    (Float.dec 15 1) (Float.dec 11 1) (Float.dec 15 1).

(** The same parameters as exact fractions *)
Definition scenario_A_exact : result (list (row Fraction)) :=
  calculate_strategy (Frac.frac 50000 1) (Frac.frac 100 1) 2 (Frac.frac 2 1)
    (Frac.frac 3 2) (Frac.frac 11 10) (Frac.frac 3 2).

(** The grid that scenario A returns, evaluated *)
Definition scenario_A_rows : list (row float) :=
  Eval vm_compute in
    match scenario_A with
    | Ok g => g
    | Raise _ => []
    end.

(** ** Parameters for which the grid makes sense *)

Section Sound.
Local Open Scope Qc_scope.

Variables (base_price base_order : Fraction) (safety_orders : Z)
          (price_step volume_scale step_scale : Fraction).

(** The preconditions of the specification, positive steps and scales, and
    every deviation that is applied strictly below 100%. *)
Definition sound : Prop :=
  valid base_price base_order safety_orders /\
  0 < price_step /\ 0 < volume_scale /\ 0 < step_scale /\
  deviations_below_100 price_step step_scale (Z.to_nat safety_orders) = true.

(** What the loop maintains on sound parameters. *)
Definition healthy (a : accum Fraction) : Prop :=
  0 < price a /\ price a <= base_price /\
  0 < size a /\ 0 < bought a /\
  price a * bought a <= spent a /\ spent a <= base_price * bought a.

End Sound.

(** * Properties *)

(** ** The run of the calculator, for every arithmetic *)

Section CalculatorFacts.
Context `{Numeric T}.
Local Open Scope num_scope.

Variables (base_price base_order : T) (safety_orders : Z)
          (price_step volume_scale step_scale tp_pct : T).

Abbreviation stage :=
  (accum_at base_price base_order price_step volume_scale step_scale).
Abbreviation rows :=
  (grid base_price base_order price_step volume_scale step_scale tp_pct).
Abbreviation so_row_at :=
  (so_row base_price base_order price_step volume_scale step_scale tp_pct).
Abbreviation locals_of :=
  (locals_at base_price base_order price_step volume_scale step_scale
     tp_pct).
Abbreviation zero_at :=
  (zero_divisor_at base_price base_order price_step volume_scale step_scale).
Abbreviation zero_in :=
  (zero_divisor base_price base_order price_step volume_scale step_scale).
Abbreviation body := (safety_order base_price volume_scale step_scale tp_pct).
Abbreviation run :=
  (calculate_strategy base_price base_order safety_orders price_step
     volume_scale step_scale tp_pct).
Abbreviation size_of := (order_size_at base_order volume_scale).
Abbreviation deviation_of := (deviation_at price_step step_scale).
Abbreviation price_of := (buy_price_at base_price price_step step_scale).
Abbreviation volume_of :=
  (volume_at base_price base_order price_step volume_scale step_scale).
Abbreviation spent_to := (spent_at base_order volume_scale).
Abbreviation bought_to :=
  (bought_at base_price base_order price_step volume_scale step_scale).

Lemma truediv_zero (x y : T) :
  is_zero y = true -> x / y = Raise ZeroDivisionError.
Proof. unfold truediv. by intros ->. Qed.

Lemma truediv_not_zero (x y : T) :
  is_zero y = false -> x / y = Ok (quot x y).
Proof. unfold truediv. by intros ->. Qed.

Lemma truediv_hundred (x : T) : x / of_int 100 = Ok (quot x (of_int 100)).
Proof. apply truediv_not_zero, hundred_not_zero. Qed.

Lemma base_order_step_run :
  base_order_step base_price base_order price_step tp_pct =
    if is_zero base_price then Raise ZeroDivisionError else Ok (locals_of 0).
Proof.
  unfold base_order_step. destruct (is_zero base_price) eqn:Hbase.
  - by rewrite (truediv_zero _ _ Hbase).
  - by rewrite (truediv_not_zero _ _ Hbase), truediv_hundred.
Qed.

Lemma grid_snoc (k : nat) : rows k ++ [so_row_at (S k)] = rows (S k).
Proof. unfold grid. by rewrite seq_S, fmap_app. Qed.

(** One pass of the loop either divides by zero or moves the variables to
    the next stage. *)
Lemma safety_order_run (k : nat) :
  is_zero base_price = false ->
  body (Z.of_nat (S k)) (locals_of k) =
    if zero_at (S k) then Raise ZeroDivisionError
    else Ok (locals_of (S k)).
Proof.
  intros Hbase. remember (locals_of (S k)) as next eqn:Hnext.
  unfold safety_order, zero_divisor_at.
  rewrite !truediv_hundred. cbn -[Z.of_nat].
  destruct (is_zero (_ * _)) eqn:Hprice.
  { by rewrite (truediv_zero _ _ Hprice). }
  rewrite (truediv_not_zero _ _ Hprice). cbn -[Z.of_nat].
  destruct (is_zero (_ + _)) eqn:Hbought.
  { by rewrite (truediv_zero _ _ Hbought). }
  rewrite (truediv_not_zero _ _ Hbought).
  rewrite (truediv_not_zero _ _ Hbase).
  subst next. unfold locals_at. by rewrite <- grid_snoc.
Qed.

Lemma for_each_run (m k : nat) :
  is_zero base_price = false ->
  for_each body ((fun j => (1 + Z.of_nat j)%Z) <$> seq k m)
      (locals_of k) =
    if existsb zero_at (seq (S k) m) then Raise ZeroDivisionError
    else Ok (locals_of (k + m)).
Proof.
  intros Hbase. revert k. induction m as [|m IH]; intros k.
  - cbn. by rewrite Nat.add_0_r.
  - cbn [seq fmap list_fmap for_each existsb].
    replace (1 + Z.of_nat k)%Z with (Z.of_nat (S k)) by lia.
    rewrite safety_order_run by done.
    destruct (zero_at (S k)); [done|].
    cbn [mbind result_bind orb]. rewrite IH.
    by replace (S k + m)%nat with (k + S m)%nat by lia.
Qed.

(** The function raises exactly when a divisor is zero, and otherwise
    returns the rows of the unrounded stages. *)
Lemma calculate_strategy_run :
  run =
    if zero_in (Z.to_nat safety_orders) then Raise ZeroDivisionError
    else Ok (rows (Z.to_nat safety_orders)).
Proof.
  unfold calculate_strategy, zero_divisor, range.
  rewrite base_order_step_run.
  destruct (is_zero base_price) eqn:Hbase; [done|].
  cbn [mbind result_bind orb].
  replace (safety_orders + 1 - 1)%Z with safety_orders by lia.
  rewrite for_each_run by done.
  by destruct (existsb _ _).
Qed.

(** *** The variables of the loop, unrolled *)

Lemma size_accum (k : nat) : size (stage k) = size_of k.
Proof. induction k as [|k IH]; [done|]. cbn. by rewrite IH. Qed.

Lemma deviation_accum (k : nat) : deviation (stage k) = deviation_of k.
Proof. induction k as [|k IH]; [done|]. cbn. by rewrite IH. Qed.

Lemma price_accum (k : nat) : price (stage k) = price_of k.
Proof.
  induction k as [|k IH]; [done|]. cbn. by rewrite IH, deviation_accum.
Qed.

Lemma sum_onto_snoc (x y : T) (l : list T) :
  sum_onto x (l ++ [y]) = sum_onto x l + y.
Proof. unfold sum_onto. by rewrite fold_left_app. Qed.

Lemma spent_accum (k : nat) : spent (stage k) = spent_to k.
Proof.
  induction k as [|k IH]; [done|].
  unfold spent_at. rewrite seq_S, fmap_app. cbn [fmap list_fmap].
  rewrite sum_onto_snoc. cbn [accum_at next_accum spent].
  by rewrite IH, size_accum.
Qed.

Lemma bought_accum (k : nat) : bought (stage k) = bought_to k.
Proof.
  induction k as [|k IH]; [done|].
  unfold bought_at. rewrite seq_S, fmap_app. cbn [fmap list_fmap].
  rewrite sum_onto_snoc. cbn [accum_at next_accum bought].
  rewrite IH. unfold volume_at. cbn [buy_price_at Nat.iter Nat.add].
  by rewrite size_accum, price_accum, deviation_accum.
Qed.

(** *** The rows of the grid *)

Lemma grid_length (n : nat) : length (rows n) = S n.
Proof. unfold grid. cbn. by rewrite length_fmap, length_seq. Qed.

Lemma grid_lookup_base (n : nat) :
  rows n !! O = Some (base_row base_price base_order tp_pct).
Proof. done. Qed.

Lemma grid_lookup_so (n k : nat) (r : row T) :
  rows n !! S k = Some r -> (S k <= n)%nat /\ r = so_row_at (S k).
Proof.
  intros Hr.
  change (rows n !! S k) with ((so_row_at <$> seq 1 n) !! k) in Hr.
  rewrite list_lookup_fmap in Hr.
  destruct (seq 1 n !! k) as [j|] eqn:Hj; [|done].
  apply lookup_seq in Hj as [-> Hk]. injection Hr as <-. split; [lia|done].
Qed.

Lemma grid_labels (n : nat) :
  Step <$> rows n = "Base" :: (so_label <$> range 1 (Z.of_nat n + 1)).
Proof.
  unfold grid, range. cbn [fmap list_fmap base_row Step]. f_equal.
  replace (Z.to_nat (Z.of_nat n + 1 - 1)) with n by lia.
  rewrite <- fmap_S_seq, <- !list_fmap_compose.
  apply list_fmap_ext. intros _ j _. cbn [compose so_row Step].
  f_equal. lia.
Qed.

Lemma zero_divisor_at_unrolled (k : nat) :
  zero_at k = is_zero (price_of k) || is_zero (bought_to k).
Proof. unfold zero_divisor_at. by rewrite price_accum, bought_accum. Qed.

Lemma zero_divisor_unrolled (n : nat) :
  zero_in n =
    is_zero base_price
    || existsb (fun k => is_zero (price_of k) || is_zero (bought_to k))
         (seq 1 n).
Proof.
  unfold zero_divisor. f_equal. induction (seq 1 n) as [|k l IH]; [done|].
  cbn [existsb]. by rewrite IH, zero_divisor_at_unrolled.
Qed.

Lemma raises_when_base_price_zero :
  is_zero base_price = true -> run = Raise ZeroDivisionError.
Proof.
  intros Hz. rewrite calculate_strategy_run. unfold zero_divisor.
  by rewrite Hz.
Qed.

Lemma raises_when_buy_price_zero (k : nat) :
  (1 <= k <= Z.to_nat safety_orders)%nat ->
  is_zero (price_of k) = true ->
  run = Raise ZeroDivisionError.
Proof.
  intros Hk Hz. rewrite calculate_strategy_run.
  replace (zero_in _) with true; [done|]. symmetry.
  unfold zero_divisor. apply orb_true_iff. right.
  apply existsb_exists. exists k. split.
  - apply in_seq. lia.
  - by rewrite zero_divisor_at_unrolled, Hz.
Qed.

Lemma returned_row (g : list (row T)) (k : nat) (r : row T) :
  run = Ok g -> g !! S k = Some r -> r = so_row_at (S k).
Proof.
  rewrite calculate_strategy_run.
  destruct (zero_in _); [done|]. intros [= <-] Hr.
  by apply grid_lookup_so in Hr as [_ ->].
Qed.

Lemma returned_base_row (g : list (row T)) :
  run = Ok g -> g !! O = Some (base_row base_price base_order tp_pct).
Proof.
  rewrite calculate_strategy_run.
  destruct (zero_in _); [done|]. by intros [= <-].
Qed.

(** The average price field of a safety-order row is the rounding of the
    quotient of the two unrounded running sums, in any arithmetic. *)
Lemma avg_price_of_running_sums (g : list (row T)) (k : nat) (r : row T) :
  run = Ok g -> g !! S k = Some r ->
  Avg_Price r = round2 (quot (spent_to (S k)) (bought_to (S k))).
Proof.
  intros Hrun Hr. rewrite (returned_row _ _ _ Hrun Hr).
  unfold so_row, average. cbn [Avg_Price].
  by rewrite spent_accum, bought_accum.
Qed.

(** *** Claims that hold in every arithmetic *)

(** C1, as amended.  For every input with [safety_orders >= 0]: when a
    divisor of the run is zero, [calculate_strategy] raises
    [ZeroDivisionError] and returns no grid; otherwise it returns a grid of
    exactly [safety_orders + 1] records, the first labelled ["Base"] and
    the following ones ["SO #1"] to ["SO #safety_orders"], in increasing
    order. *)
Theorem grid_shape :
  (0 <= safety_orders)%Z ->
  if zero_in (Z.to_nat safety_orders) then run = Raise ZeroDivisionError
  else exists g,
    run = Ok g /\
    Z.of_nat (length g) = (safety_orders + 1)%Z /\
    Step <$> g = "Base" :: (so_label <$> range 1 (safety_orders + 1)).
Proof.
  intros Hn. rewrite calculate_strategy_run.
  destruct (zero_in _); [done|].
  eexists. split; [done|]. split.
  - rewrite grid_length. lia.
  - rewrite grid_labels. by rewrite Z2Nat.id.
Qed.

(** C7, as amended.  For every parameter set, valid or not, the loop runs
    over [max safety_orders 0] indices and [calculate_strategy] raises
    [ZeroDivisionError] exactly when [base_price] is zero or, at some
    stage, the unrounded buy price or the volume bought so far is zero;
    in every other case, whatever the sign of the prices, it returns the
    complete grid of [max safety_orders 0 + 1] records. *)
Theorem run_completes_unless_zero_divisor :
  let n := Z.to_nat safety_orders in
  length (range 1 (safety_orders + 1)) = n /\
  length (rows n) = S n /\
  run =
    if is_zero base_price
       || existsb (fun k => is_zero (price_of k) || is_zero (bought_to k))
            (seq 1 n)
    then Raise ZeroDivisionError
    else Ok (rows n).
Proof.
  intros n. split; [|split].
  - unfold range. rewrite length_fmap, length_seq. lia.
  - apply grid_length.
  - rewrite <- zero_divisor_unrolled. apply calculate_strategy_run.
Qed.

(** C6, as amended.  For every valid parameter set with
    [safety_orders = 0] the grid is the Base record alone, and its fields
    are the roundings to two decimals of: buy price [base_price], order
    size [base_order], total invested [base_order], average price
    [base_price], take-profit [base_price * (1 + tp_pct / 100)]; the drop
    is the constant 0. *)
Theorem base_record_alone :
  valid base_price base_order safety_orders ->
  safety_orders = 0%Z ->
  run = Ok [ {| Step := "Base";
                Buy_Price := round2 base_price;
                Order_Size := round2 base_order;
                Total_Investment := round2 base_order;
                Avg_Price := round2 base_price;
                TP_Target :=
                  round2
                    (base_price * (of_int 1 + quot tp_pct (of_int 100)));
                Drop_pct := of_int 0 |} ].
Proof.
  intros (Hprice & _ & _) Hn. rewrite calculate_strategy_run, Hn.
  unfold zero_divisor. by rewrite (positive_not_zero _ Hprice).
Qed.

(** C3, as amended.  In the grid returned, the "Order Size ($)" field of
    record [k] is the rounding of the unrounded order size of stage [k],
    and the "Total Investment ($)" field of record [k] is the rounding of
    the sum of the unrounded order sizes of stages [0] to [k], added in
    this order. *)
Theorem total_investment_rounds_the_sum (g : list (row T)) (k : nat)
    (r : row T) :
  run = Ok g ->
  g !! k = Some r ->
  Order_Size r = round2 (size_of k) /\
  Total_Investment r =
    round2 (sum_onto (size_of 0) (size_of <$> seq 1 k)).
Proof.
  intros Hrun Hr. destruct k as [|k].
  - rewrite (returned_base_row _ Hrun) in Hr. by injection Hr as <-.
  - rewrite (returned_row _ _ _ Hrun Hr).
    unfold so_row. cbn [Order_Size Total_Investment].
    by rewrite size_accum, spent_accum.
Qed.

End CalculatorFacts.

(** ** The strategy store *)

Section DictFacts.
Context {V : Type}.
Implicit Types (k : string) (v : V) (d : dict V).

Lemma dict_in_true k d : dict_in k d = true <-> is_Some (dict_get k d).
Proof. unfold dict_in. by rewrite bool_decide_eq_true. Qed.

Lemma dict_in_false k d : dict_in k d = false <-> dict_get k d = None.
Proof.
  unfold dict_in. rewrite bool_decide_eq_false. symmetry. apply eq_None_not_Some.
Qed.

Lemma dict_get_set_eq k v d : dict_get k (dict_set k v d) = Some v.
Proof.
  induction d as [|[k' v'] d IH]; cbn.
  - by rewrite decide_True.
  - destruct (decide (k' = k)) as [->|Hne]; cbn.
    + by rewrite decide_True.
    + by rewrite decide_False.
Qed.

Lemma dict_get_set_ne k k' v d :
  k' <> k -> dict_get k' (dict_set k v d) = dict_get k' d.
Proof.
  intros Hne. induction d as [|[k0 v0] d IH]; cbn.
  - by rewrite decide_False.
  - destruct (decide (k0 = k)) as [->|Hk0]; cbn.
    + by rewrite !decide_False.
    + by rewrite IH.
Qed.

Lemma dict_get_set k k' v d :
  dict_get k' (dict_set k v d) =
    if decide (k' = k) then Some v else dict_get k' d.
Proof.
  destruct (decide (k' = k)) as [->|Hne].
  - apply dict_get_set_eq.
  - by apply dict_get_set_ne.
Qed.

Lemma dict_get_del_eq k d : dict_get k (dict_del k d) = None.
Proof.
  unfold dict_del. induction d as [|[k' v'] d IH]; [done|].
  rewrite filter_cons. cbn [fst].
  destruct (decide (k' <> k)) as [Hne|Heq]; [|done].
  cbn. by rewrite decide_False.
Qed.

Lemma dict_get_del_ne k k' d :
  k' <> k -> dict_get k' (dict_del k d) = dict_get k' d.
Proof.
  intros Hne. unfold dict_del. induction d as [|[k0 v0] d IH]; [done|].
  rewrite filter_cons. cbn [fst].
  destruct (decide (k0 <> k)) as [Hk0|Hk0]; cbn.
  - by rewrite IH.
  - apply dec_stable in Hk0 as ->. by rewrite decide_False.
Qed.

Lemma dict_del_absent k d : dict_get k d = None -> dict_del k d = d.
Proof.
  unfold dict_del. induction d as [|[k' v'] d IH]; [done|].
  cbn [dict_get]. destruct (decide (k' = k)) as [->|Hne]; [done|].
  intros Hd. rewrite filter_cons. cbn [fst]. rewrite decide_True by done.
  by rewrite IH.
Qed.

Lemma dict_del_set k v d : dict_del k (dict_set k v d) = dict_del k d.
Proof.
  unfold dict_del. induction d as [|[k' v'] d IH]; cbn [dict_set].
  - rewrite filter_cons. cbn [fst]. by rewrite decide_False by (by intros []).
  - destruct (decide (k' = k)) as [->|Hne].
    + rewrite !filter_cons. cbn [fst].
      by rewrite !decide_False by (by intros []).
    + rewrite !filter_cons. cbn [fst]. rewrite !decide_True by done.
      by rewrite IH.
Qed.

Lemma dict_set_fresh k v d :
  dict_get k d = None -> dict_set k v d = d ++ [(k, v)].
Proof.
  induction d as [|[k' v'] d IH]; [done|]. cbn.
  destruct (decide (k' = k)) as [->|Hne]; [done|].
  intros Hd. by rewrite IH.
Qed.

Lemma dict_set_set k v1 v2 d :
  dict_set k v2 (dict_set k v1 d) = dict_set k v2 d.
Proof.
  induction d as [|[k' v'] d IH]; cbn.
  - by rewrite decide_True.
  - destruct (decide (k' = k)) as [->|Hne]; cbn.
    + by rewrite decide_True.
    + by rewrite decide_False, IH.
Qed.

Lemma dict_set_comm k1 k2 v1 v2 d :
  k1 <> k2 ->
  dict_in k1 d || dict_in k2 d = true ->
  dict_set k2 v2 (dict_set k1 v1 d) = dict_set k1 v1 (dict_set k2 v2 d).
Proof.
  intros Hne. induction d as [|[k v] d IH].
  - intros Hin. apply orb_true_iff in Hin as [Hin|Hin];
      apply dict_in_true in Hin; by destruct Hin.
  - intros Hin. cbn [dict_set].
    destruct (decide (k = k1)) as [Hk1|Hk1];
      destruct (decide (k = k2)) as [Hk2|Hk2]; cbn [dict_set];
      repeat case_decide; simplify_eq; try done.
    f_equal. apply IH. unfold dict_in in *. cbn [dict_get] in Hin.
    by rewrite !decide_False in Hin.
Qed.

(** The keys stay distinct, and keep their order. *)
Lemma dict_keys_set k v d :
  dict_keys (dict_set k v d) =
    if dict_in k d then dict_keys d else dict_keys d ++ [k].
Proof.
  unfold dict_keys. induction d as [|[k' v'] d IH]; [done|]. cbn.
  destruct (decide (k' = k)) as [->|Hne].
  - unfold dict_in. cbn. rewrite decide_True by done.
    by rewrite bool_decide_eq_true_2.
  - cbn. rewrite IH. unfold dict_in. cbn. rewrite decide_False by done.
    by destruct (bool_decide _).
Qed.

Lemma dict_keys_del k d :
  dict_keys (dict_del k d) = filter (fun k' => k' <> k) (dict_keys d).
Proof.
  unfold dict_keys, dict_del. induction d as [|[k' v'] d IH]; [done|].
  rewrite fmap_cons, !filter_cons. cbn [fst]. rewrite <- IH.
  by destruct (decide (k' <> k)).
Qed.

Lemma dict_get_keys k d : is_Some (dict_get k d) <-> k ∈ dict_keys d.
Proof.
  unfold dict_keys. induction d as [|[k' v'] d IH]; cbn.
  - rewrite elem_of_nil. split; [by intros []|done].
  - rewrite elem_of_cons. destruct (decide (k' = k)) as [->|Hne].
    + split; [by left|eauto].
    + rewrite IH. split; [by right|]. by intros [->|].
Qed.

Lemma dict_keys_nodup_set k v d :
  NoDup (dict_keys d) -> NoDup (dict_keys (dict_set k v d)).
Proof.
  intros Hd. rewrite dict_keys_set.
  destruct (dict_in k d) eqn:Hin; [done|].
  apply NoDup_app. split_and!; [done| |apply NoDup_singleton].
  intros k' Hk' ->%list_elem_of_singleton.
  apply dict_get_keys in Hk'. apply dict_in_false in Hin.
  rewrite Hin in Hk'. by destruct Hk'.
Qed.

Lemma dict_keys_nodup_del k d :
  NoDup (dict_keys d) -> NoDup (dict_keys (dict_del k d)).
Proof. intros Hd. rewrite dict_keys_del. by apply NoDup_filter. Qed.

End DictFacts.

Section StoreFacts.
Context {T : Type}.

Lemma delete_present (name : string) (data : store T) :
  is_Some (dict_get name data) ->
  DCABot.delete_strategy name (Json data) =
    Returns (true, Json (dict_del name data)).
Proof.
  intros Hname%dict_in_true. unfold DCABot.delete_strategy. cbn.
  by rewrite !Hname.
Qed.

Lemma delete_absent (name : string) (data : store T) :
  dict_get name data = None ->
  DCABot.delete_strategy name (Json data) = Returns (false, Json data).
Proof.
  intros Hname%dict_in_false. unfold DCABot.delete_strategy. cbn.
  by rewrite Hname.
Qed.

(** C9.  [delete_strategy] on each state of the configuration file.  On a
    file that holds a JSON object it does what is claimed: when an entry is
    saved under the name it returns [True] and writes the object without it,
    every other entry untouched and in place; when there is none it returns
    [False] and leaves the file as it was.  On a missing file and on one
    that is not JSON, where [load_all_strategies] returns the empty dict,
    it raises what the read raises and returns nothing. *)
Theorem delete_strategy_on_the_file (name : string) (f : file T) :
  match f with
  | Json data =>
      DCABot.load_all_strategies f = Returns (Object data) /\
      match dict_get name data with
      | Some _ =>
          DCABot.delete_strategy name f =
            Returns (true, Json (dict_del name data)) /\
          dict_get name (dict_del name data) = None /\
          (forall other, other <> name ->
             dict_get other (dict_del name data) = dict_get other data) /\
          dict_keys (dict_del name data) =
            filter (fun other => other <> name) (dict_keys data)
      | None => DCABot.delete_strategy name f = Returns (false, f)
      end
  | Missing =>
      DCABot.load_all_strategies f = Returns (Object []) /\
      DCABot.delete_strategy name f = Raises FileNotFoundError
  | Unreadable =>
      DCABot.load_all_strategies f = Returns (Object []) /\
      DCABot.delete_strategy name f = Raises JSONDecodeError
  | Undecodable =>
      DCABot.load_all_strategies f = Raises UnicodeDecodeError /\
      DCABot.delete_strategy name f = Raises UnicodeDecodeError
  | NotObject v =>
      DCABot.load_all_strategies f = Returns (Other v) /\
      DCABot.delete_strategy name f =
        (found ← contains (T:=T) name (Other v);
         if (found : bool) then Raises TypeError else Returns (false, f))
  end.
Proof.
  destruct f as [| | |v|data]; [done..|].
  split; [done|]. destruct (dict_get name data) as [e|] eqn:Hname.
  - split_and!.
    + apply delete_present. by rewrite Hname.
    + apply dict_get_del_eq.
    + intros other Hne. by apply dict_get_del_ne.
    + apply dict_keys_del.
  - by apply delete_absent.
Qed.

End StoreFacts.

(** ** The calculator on floats

    Inputs and expected outputs are written as decimal literals:
    [Float.dec 4939516 2] is the float [49395.16]. *)

Section OnFloats.
Import Float.

Abbreviation calculate := (calculate_strategy (T:=float)).

(** A finite price that drops by exactly 100% is zero. *)
Lemma full_deviation_zero_price (p d : float) :
  is_finite p = true -> d = of_int 100 ->
  is_zero (mul p (sub (of_int 1) (quot d (of_int 100)))) = true.
Proof. intros Hp ->. by destruct p as [[]|[]| |[]]. Qed.

(** Rounding can absorb a deviation: with [price_step = 1e-20] the first
    safety order is priced at the base price.  Strict decrease of the buy
    prices is a fact of exact arithmetic. *)
Lemma tiny_deviation_keeps_the_price :
  buy_price_at (T:=float) (dec 50000 0) (dec 1 20) (dec 1 0) 1 =
    dec 50000 0.
Proof. by vm_compute. Qed.

(** C1 fails as stated: scenario A with [price_step = 100.0] has valid
    parameters and [safety_orders = 2], and the call raises and returns no
    grid. *)
Lemma no_grid_when_a_price_is_zero :
  let run :=
    calculate (dec 50000 0) (dec 100 0) 2 (dec 100 0) (dec 15 1) (dec 11 1)
      (dec 15 1) in
  valid (dec 50000 0) (dec 100 0) 2 /\
  run = Raise ZeroDivisionError /\
  ~ exists g, run = Ok g /\ length g = 3%nat.
Proof.
  split; [by repeat split|]. split; [by vm_compute|].
  by intros (g & [=] & _).
Qed.

(** C7 fails as stated: with [price_step = 100.0] the first safety order
    is priced at zero and the call raises. *)
Lemma run_fails_at_full_deviation :
  let run :=
    calculate (dec 100 0) (dec 100 0) 1 (dec 100 0) (dec 1 0) (dec 1 0)
      (dec 15 1) in
  buy_price_at (T:=float) (dec 100 0) (dec 100 0) (dec 1 0) 1 = dec 0 0 /\
  run = Raise ZeroDivisionError /\
  ~ exists g, run = Ok g.
Proof.
  split; [by vm_compute|]. split; [by vm_compute|]. by intros (g & [=]).
Qed.

(** C6 fails as stated: with [base_price = 123.456] the buy price of the
    Base record is [123.46]. *)
Lemma base_record_is_rounded :
  exists r,
    calculate (dec 123456 3) (dec 100 0) 0 (dec 2 0) (dec 15 1) (dec 11 1)
      (dec 15 1) = Ok [r] /\
    Buy_Price r = dec 12346 2 /\
    Buy_Price r <> dec 123456 3.
Proof. eexists. split; [by vm_compute|]. by split. Qed.

(** C3 fails as stated: with [base_order = 0.004] and [volume_scale = 1]
    both order sizes are displayed as [0.0] and the total invested after
    the safety order as [0.01]. *)
Lemma total_investment_is_not_the_sum_of_fields :
  exists r0 r1,
    calculate (dec 1 0) (dec 4 3) 1 (dec 2 0) (dec 1 0) (dec 1 0)
      (dec 15 1) = Ok [r0; r1] /\
    Order_Size r0 = dec 0 0 /\ Order_Size r1 = dec 0 0 /\
    Total_Investment r1 = dec 1 2 /\
    Total_Investment r1 <> add (Order_Size r0) (Order_Size r1).
Proof. do 2 eexists. split; [by vm_compute|]. by repeat split. Qed.

(** C8 fails as stated: in scenario A the average price of record 1 is
    [49395.16], more than four dollars below [49400.00]. *)
Lemma scenario_A_average_is_not_49400 :
  exists r0 r1 r2,
    scenario_A = Ok [r0; r1; r2] /\
    Avg_Price r1 = dec 4939516 2 /\
    ltb (add (Avg_Price r1) (dec 4 0)) (dec 4940000 2) = true.
Proof. do 3 eexists. split; [by vm_compute|]. by split. Qed.

(** C8, as amended.  Scenario A returns these three records; the
    deviation applied to the second safety order is [2.2]. *)
Theorem scenario_A_grid :
  scenario_A =
    Ok [ Row "Base" (dec 5000000 2) (dec 10000 2) (dec 10000 2)
           (dec 5000000 2) (dec 5075000 2) (dec 0 0);
         Row "SO #1" (dec 4900000 2) (dec 15000 2) (dec 25000 2)
           (dec 4939516 2) (dec 5013609 2) (dec 200 2);
         Row "SO #2" (dec 4792200 2) (dec 22500 2) (dec 47500 2)
           (dec 4868622 2) (dec 4941651 2) (dec 416 2) ] /\
  deviation_at (T:=float) (dec 2 0) (dec 11 1) 1 = dec 22 1.
Proof. by vm_compute. Qed.

End OnFloats.

(** ** Rounding to the nearest integer, ties to even *)

Lemma round_half_even_bounds (a : Z) (b : positive) :
  2 * a - Zpos b <= 2 * Zpos b * round_half_even a b <= 2 * a + Zpos b.
Proof.
  unfold round_half_even.
  pose proof (Z.div_mod a (Zpos b) ltac:(lia)) as Hdiv.
  pose proof (Z.mod_pos_bound a (Zpos b) ltac:(lia)) as Hmod.
  revert Hdiv Hmod. generalize (a / Zpos b) (a mod Zpos b).
  intros q r Hdiv Hmod. cbv zeta. rewrite Hdiv.
  destruct (Z.compare_spec (2 * r) (Zpos b)) as [Hcmp|Hcmp|Hcmp].
  - destruct (Z.even _); nia.
  - nia.
  - nia.
Qed.

(** A strictly smaller quotient never rounds to a larger integer. *)
Lemma round_half_even_mono (a a' : Z) (b b' : positive) :
  a * Zpos b' < a' * Zpos b -> round_half_even a b <= round_half_even a' b'.
Proof.
  intros Hlt.
  pose proof (round_half_even_bounds a b) as [_ Hup].
  pose proof (round_half_even_bounds a' b') as [Hlow _].
  revert Hup Hlow. generalize (round_half_even a b) (round_half_even a' b').
  intros N N' Hup Hlow.
  destruct (Z_le_gt_dec N N') as [|Hgt]; [done|exfalso].
  assert (Zpos b * Zpos b' * (2 * N)
          <= Zpos b * Zpos b' * (2 * N' + 1) + Zpos b * Zpos b' - 1) by nia.
  nia.
Qed.

(** ** Exact arithmetic: order and division on [Fraction] *)

Section FractionArithmetic.
Local Open Scope Qc_scope.

Lemma this_Q2Qc (q : Q) : (this (Q2Qc q) == q)%Q.
Proof. apply Qred_correct. Qed.

Lemma this_plus (x y : Qc) : (this (x + y) == this x + this y)%Q.
Proof. apply Qred_correct. Qed.

Lemma this_mult (x y : Qc) : (this (x * y) == this x * this y)%Q.
Proof. apply Qred_correct. Qed.

Lemma this_opp (x : Qc) : (this (- x) == - this x)%Q.
Proof. apply Qred_correct. Qed.

Lemma this_minus (x y : Qc) : (this (x - y) == this x - this y)%Q.
Proof. unfold Qcminus. by rewrite this_plus, this_opp. Qed.

Lemma div_def (x y : Qc) : 0 < y -> (this y * this (x / y) == this x)%Q.
Proof.
  intros Hy. rewrite <- this_mult, Qcmult_div_r; [done|].
  by intros ->.
Qed.

Lemma percent_def (d : Qc) :
  (this (d / Frac.of_int 100) * 100 == this d)%Q.
Proof.
  change 100%Q with (this (Frac.of_int 100)). rewrite Qmult_comm.
  by apply div_def.
Qed.

End FractionArithmetic.

(** Orders on [Qc] become orders on [Q] over the underlying fractions, where
    [lra] and [nra] decide them. *)
Ltac this_step :=
  rewrite_strat
    (topdown (choice this_minus
               (choice this_plus (choice this_mult this_opp)))).
Ltac this_step_in H :=
  rewrite_strat
    (topdown (choice this_minus
               (choice this_plus (choice this_mult this_opp)))) in H.
Ltac order_to_Q :=
  unfold Qclt, Qcle in *;
  repeat this_step;
  repeat match goal with H : _ |- _ => this_step_in H end;
  change (this 0%Qc) with 0%Q in *;
  change (this 1%Qc) with 1%Q in *;
  change (this (Frac.of_int 100)) with 100%Q in *.

Section FractionOrder.
Local Open Scope Qc_scope.

Lemma factor_bounds (d : Qc) :
  0 < d -> d < Frac.of_int 100 ->
  0 < 1 - d / Frac.of_int 100 /\ 1 - d / Frac.of_int 100 < 1.
Proof.
  intros Hd Hd'. pose proof (percent_def d) as Hc.
  revert Hc. generalize (d / Frac.of_int 100). intros c Hc.
  order_to_Q. split; lra.
Qed.

Lemma price_drop (p f : Qc) :
  0 < p -> 0 < f -> f < 1 -> 0 < p * f /\ p * f < p.
Proof. intros Hp Hf Hf1. order_to_Q. split; nra. Qed.

Lemma mult_pos (x y : Qc) : 0 < x -> 0 < y -> 0 < x * y.
Proof. intros Hx Hy. order_to_Q. nra. Qed.

Lemma div_pos (o p : Qc) : 0 < o -> 0 < p -> 0 < o / p.
Proof.
  intros Ho Hp. pose proof (div_def o p Hp) as Hq.
  revert Hq. generalize (o / p). intros q Hq. order_to_Q. nra.
Qed.

(** Adding an order [o] bought at [p'], not above the last price [p], keeps
    the money spent [S] between [p' * V] and [b * V]. *)
Lemma average_step (S V p p' o b : Qc) :
  0 < V -> 0 < p' -> p' <= p -> p <= b -> 0 < o ->
  p * V <= S -> S <= b * V ->
  0 < V + o / p' /\
  p' * (V + o / p') <= S + o /\
  S + o <= b * (V + o / p').
Proof.
  intros HV Hp' Hpp Hpb Ho HpS HSb.
  pose proof (div_pos o p' Ho Hp') as Hq0.
  pose proof (div_def o p' Hp') as Hq.
  revert Hq0 Hq. generalize (o / p'). intros q Hq0 Hq. order_to_Q.
  assert (this p' * this V <= this p * this V)%Q by nra.
  assert (this p' * this q <= this b * this q)%Q by nra.
  split; [lra|]. split; lra.
Qed.

Lemma average_bounds (S V p b : Qc) :
  0 < V -> p * V <= S -> S <= b * V -> p <= S / V /\ S / V <= b.
Proof.
  intros HV HpS HSb. pose proof (div_def S V HV) as Hq.
  revert Hq. generalize (S / V). intros q Hq. order_to_Q. split; nra.
Qed.

(** [round(x, 2)] is monotone on fractions. *)
Lemma round2_mono (x y : Fraction) : x <= y -> Frac.round2 x <= Frac.round2 y.
Proof.
  intros Hxy. apply Qcle_lt_or_eq in Hxy as [Hlt| ->]; [|apply Qcle_refl].
  assert (Hscaled : x * Frac.of_int 100 < y * Frac.of_int 100).
  { by apply Qcmult_lt_compat_r. }
  unfold Frac.round2, Frac.frac, Qcle. rewrite !this_Q2Qc.
  unfold Qle. cbn [Qnum Qden]. apply Z.mul_le_mono_nonneg_r; [lia|].
  apply round_half_even_mono. exact Hscaled.
Qed.

End FractionOrder.

(** ** The calculator on exact fractions *)

Section OnFractions.
Local Open Scope Qc_scope.

Variables (base_price base_order : Fraction) (safety_orders : Z)
          (price_step volume_scale step_scale tp_pct : Fraction).

Abbreviation stage :=
  (accum_at base_price base_order price_step volume_scale step_scale).
Abbreviation rows :=
  (grid base_price base_order price_step volume_scale step_scale tp_pct).
Abbreviation run :=
  (calculate_strategy base_price base_order safety_orders price_step
     volume_scale step_scale tp_pct).
Abbreviation deviation_of := (deviation_at price_step step_scale).
Abbreviation price_of := (buy_price_at base_price price_step step_scale).
Abbreviation average_of :=
  (average_at base_price base_order price_step volume_scale step_scale).
Abbreviation is_sound :=
  (sound base_price base_order safety_orders price_step volume_scale
     step_scale).
Abbreviation is_healthy := (healthy base_price).

Lemma next_accum_fraction (a : accum Fraction) :
  next_accum volume_scale step_scale a =
    let buy_price := price a * (1 - deviation a / Frac.of_int 100) in
    let order_size := size a * volume_scale in
    {| spent := spent a + order_size;
       bought := bought a + order_size / buy_price;
       price := buy_price;
       size := order_size;
       deviation := deviation a * step_scale |}.
Proof. reflexivity. Qed.

Lemma valid_fraction :
  valid base_price base_order safety_orders ->
  0 < base_price /\ 0 < base_order /\ (0 <= safety_orders)%Z.
Proof. intros (Hp & Ho & Hn). by split_and!; [apply Frac.ltb_spec..|]. Qed.

Lemma healthy_start :
  0 < base_price -> 0 < base_order -> is_healthy (stage 0).
Proof.
  intros Hp Ho. unfold healthy. cbn.
  assert (Hq : base_price * (base_order / base_price) = base_order).
  { apply Qcmult_div_r. by intros ->. }
  rewrite Hq. split_and!; try done; try apply Qcle_refl.
  by apply div_pos.
Qed.

Lemma healthy_step (a : accum Fraction) :
  is_healthy a -> 0 < deviation a -> deviation a < Frac.of_int 100 ->
  0 < volume_scale ->
  is_healthy (next_accum volume_scale step_scale a) /\
  price (next_accum volume_scale step_scale a) < price a.
Proof.
  intros (Hp & Hpb & Ho & HV & HpS & HSb) Hd Hd' Hvs.
  rewrite next_accum_fraction. cbn [spent bought price size].
  destruct (factor_bounds _ Hd Hd') as [Hf Hf'].
  destruct (price_drop _ _ Hp Hf Hf') as [Hp' Hlt].
  pose proof (mult_pos _ _ Ho Hvs) as Ho'.
  destruct (average_step _ _ _ _ _ _ HV Hp' (Qclt_le_weak _ _ Hlt) Hpb Ho'
              HpS HSb) as (HV' & HpS' & HSb').
  split; [|done]. unfold healthy. cbn [spent bought price size].
  split_and!; try done.
  eapply Qcle_trans; [by apply Qclt_le_weak|done].
Qed.

Lemma deviation_positive (k : nat) :
  0 < price_step -> 0 < step_scale -> 0 < deviation_of k.
Proof.
  intros Hps Hss. induction k as [|k IH]; [done|]. by apply mult_pos.
Qed.

Lemma deviation_below (n k : nat) :
  deviations_below_100 price_step step_scale n = true -> (k < n)%nat ->
  deviation_of k < Frac.of_int 100.
Proof.
  intros Hall Hk. unfold deviations_below_100 in Hall.
  rewrite forallb_forall in Hall. apply Frac.ltb_spec, Hall, in_seq. lia.
Qed.

Lemma healthy_at (k : nat) :
  is_sound -> (k <= Z.to_nat safety_orders)%nat -> is_healthy (stage k).
Proof.
  intros (Hvalid & Hps & Hvs & Hss & Hdev) Hk.
  apply valid_fraction in Hvalid as (Hp & Ho & _).
  induction k as [|k IH]; [by apply healthy_start|].
  cbn [accum_at].
  apply healthy_step; [apply IH; lia|..|done]; rewrite deviation_accum.
  - by apply deviation_positive.
  - eapply deviation_below; [done|lia].
Qed.

Lemma price_decreases (k : nat) :
  is_sound -> (k < Z.to_nat safety_orders)%nat ->
  price_of (S k) < price_of k.
Proof.
  intros Hsound Hk.
  rewrite <- !(price_accum base_price base_order price_step volume_scale).
  pose proof Hsound as (_ & Hps & Hvs & Hss & Hdev).
  cbn [accum_at].
  apply healthy_step; [apply healthy_at; [done|lia]|..|done];
    rewrite deviation_accum.
  - by apply deviation_positive.
  - by eapply deviation_below.
Qed.

Lemma no_zero_divisor :
  is_sound ->
  zero_divisor base_price base_order price_step volume_scale step_scale
    (Z.to_nat safety_orders) = false.
Proof.
  intros Hsound. unfold zero_divisor.
  pose proof Hsound as ((Hp & _) & _).
  rewrite (positive_not_zero _ Hp). cbn [orb].
  destruct (existsb _ _) eqn:Hex; [exfalso|done].
  apply existsb_exists in Hex as (k & Hk%in_seq & Hzero).
  destruct (healthy_at k Hsound ltac:(lia)) as (Hprice & _ & _ & Hbought & _).
  unfold zero_divisor_at in Hzero.
  rewrite (positive_not_zero (price (stage k))) in Hzero
    by by apply Frac.ltb_spec.
  rewrite (positive_not_zero (bought (stage k))) in Hzero
    by by apply Frac.ltb_spec.
  done.
Qed.

Lemma sound_run : is_sound -> run = Ok (rows (Z.to_nat safety_orders)).
Proof.
  intros Hsound. by rewrite calculate_strategy_run, no_zero_divisor.
Qed.

Lemma price_antitone (j k : nat) :
  is_sound -> (j <= k <= Z.to_nat safety_orders)%nat ->
  price_of k <= price_of j.
Proof.
  intros Hsound [Hjk Hk]. induction k as [|k IH].
  - replace j with 0%nat by lia. apply Qcle_refl.
  - destruct (decide (j = S k)) as [->|Hne]; [apply Qcle_refl|].
    eapply Qcle_trans; [|apply IH; lia].
    apply Qclt_le_weak, price_decreases; [done|lia].
Qed.

Lemma average_within (k : nat) :
  is_sound -> (k <= Z.to_nat safety_orders)%nat ->
  price_of k <= average_of k /\ average_of k <= base_price.
Proof.
  intros Hsound Hk. unfold average_at.
  rewrite <- (spent_accum base_price base_order price_step volume_scale
                step_scale), <- bought_accum.
  rewrite <- (price_accum base_price base_order price_step volume_scale).
  destruct (healthy_at k Hsound Hk) as (_ & _ & _ & HV & HpS & HSb).
  by apply average_bounds.
Qed.

Lemma displayed_price (n k : nat) (r : row Fraction) :
  rows n !! k = Some r -> Buy_Price r = Frac.round2 (price_of k).
Proof.
  destruct k as [|k].
  - by intros [= <-].
  - intros [_ ->]%grid_lookup_so. unfold so_row. cbn [Buy_Price].
    by rewrite price_accum.
Qed.

Lemma displayed_average (n k : nat) (r : row Fraction) :
  rows n !! S k = Some r -> Avg_Price r = Frac.round2 (average_of (S k)).
Proof.
  intros [_ ->]%grid_lookup_so. unfold so_row, average, average_at.
  cbn [Avg_Price]. by rewrite spent_accum, bought_accum.
Qed.

(** C2, as amended.  In exact arithmetic, for every valid parameter set
    with [price_step > 0], [volume_scale > 0], [step_scale > 0] and every
    applied deviation below 100%, [calculate_strategy] returns its grid, the
    unrounded buy prices of consecutive stages are strictly decreasing, and
    the displayed buy prices of consecutive records never increase. *)
Theorem buy_prices_decrease :
  valid base_price base_order safety_orders ->
  0 < price_step -> 0 < volume_scale -> 0 < step_scale ->
  deviations_below_100 price_step step_scale (Z.to_nat safety_orders) = true ->
  let n := Z.to_nat safety_orders in
  run = Ok (rows n) /\
  (forall k, (k < n)%nat -> price_of (S k) < price_of k) /\
  (forall (k : nat) (r r' : row Fraction),
     rows n !! k = Some r -> rows n !! S k = Some r' ->
     Buy_Price r' <= Buy_Price r).
Proof.
  intros Hvalid Hps Hvs Hss Hdev n.
  assert (Hsound : is_sound) by done.
  split; [by apply sound_run|]. split.
  - intros k Hk. by apply price_decreases.
  - intros k r r' Hr Hr'.
    rewrite (displayed_price _ _ _ Hr), (displayed_price _ _ _ Hr').
    apply grid_lookup_so in Hr' as [Hk _].
    apply round2_mono, Qclt_le_weak, price_decreases; [done|]. fold n. lia.
Qed.

(** C5, as amended.  In exact arithmetic, for every valid parameter set
    with [price_step > 0], [volume_scale > 0], [step_scale > 0] and every
    applied deviation below 100%, at every safety-order stage [k >= 1] the
    buy price of the stage is the lowest so far and the unrounded average
    price lies between it and the base price; the displayed average price
    lies between the displayed buy price of the record and the displayed
    buy price of the Base record. *)
Theorem average_between_lowest_and_base :
  valid base_price base_order safety_orders ->
  0 < price_step -> 0 < volume_scale -> 0 < step_scale ->
  deviations_below_100 price_step step_scale (Z.to_nat safety_orders) = true ->
  let n := Z.to_nat safety_orders in
  run = Ok (rows n) /\
  forall k, (1 <= k <= n)%nat ->
    (forall j, (j <= k)%nat -> price_of k <= price_of j) /\
    price_of k <= average_of k /\
    average_of k <= base_price /\
    (forall r0 r : row Fraction,
       rows n !! O = Some r0 -> rows n !! k = Some r ->
       Buy_Price r <= Avg_Price r /\ Avg_Price r <= Buy_Price r0).
Proof.
  intros Hvalid Hps Hvs Hss Hdev n.
  assert (Hsound : is_sound) by done.
  split; [by apply sound_run|]. intros k [Hk1 Hkn].
  destruct (average_within k Hsound Hkn) as [Hlow Hhigh].
  split_and!; try done.
  - intros j Hj. apply price_antitone; [done|]. fold n. lia.
  - intros r0 r Hr0 Hr. destruct k as [|k]; [lia|].
    rewrite (displayed_price _ _ _ Hr0), (displayed_price _ _ _ Hr).
    rewrite (displayed_average _ _ _ Hr).
    split; by apply round2_mono.
Qed.

End OnFractions.

(** ** Claims stated over both arithmetics *)

Lemma base_average (base_price base_order price_step volume_scale
    step_scale : Fraction) :
  (0 < base_price)%Qc -> (0 < base_order)%Qc ->
  average_at base_price base_order price_step volume_scale step_scale 0 =
    base_price.
Proof.
  intros Hp Ho.
  change ((base_order / (base_order / base_price))%Qc = base_price).
  field. split; by intros ->.
Qed.

Lemma full_deviation_zero_fraction (p d : Fraction) :
  d = Frac.of_int 100 ->
  (p * (1 - d / Frac.of_int 100))%Qc = 0%Qc.
Proof.
  intros ->.
  replace (1 - Frac.of_int 100 / Frac.of_int 100)%Qc with 0%Qc.
  - apply Qcmult_0_r.
  - by apply Qc_is_canon.
Qed.

(** C4.  The "Avg Price ($)" field is the rounding to two decimals of a
    value that the run never rounds.  For a safety-order record [k >= 1],
    in every arithmetic, that value is the quotient of two running sums of
    unrounded values: the order sizes of stages [0] to [k], and the volumes
    (order size over unrounded buy price) of the same stages.  For the
    Base record, in every arithmetic, it is [base_price] itself, which the
    code stores without dividing.  In exact arithmetic the two agree:
    every record of a valid parameter set, the Base record included, shows
    the rounded quotient of the running sums. *)
Theorem average_price_from_unrounded_sums :
  (forall (T : Type) (N : Numeric T) (base_price base_order : T)
      (safety_orders : Z) (price_step volume_scale step_scale tp_pct : T)
      (g : list (row T)) (k : nat) (r : row T),
    calculate_strategy base_price base_order safety_orders price_step
      volume_scale step_scale tp_pct = Ok g ->
    g !! S k = Some r ->
    Avg_Price r =
      round2
        (quot (spent_at base_order volume_scale (S k))
           (bought_at base_price base_order price_step volume_scale
              step_scale (S k)))) /\
  (forall (T : Type) (N : Numeric T) (base_price base_order : T)
      (safety_orders : Z) (price_step volume_scale step_scale tp_pct : T)
      (g : list (row T)) (r : row T),
    calculate_strategy base_price base_order safety_orders price_step
      volume_scale step_scale tp_pct = Ok g ->
    g !! 0%nat = Some r ->
    Avg_Price r = round2 base_price) /\
  (forall (base_price base_order : Fraction) (safety_orders : Z)
      (price_step volume_scale step_scale tp_pct : Fraction)
      (g : list (row Fraction)) (k : nat) (r : row Fraction),
    valid base_price base_order safety_orders ->
    calculate_strategy base_price base_order safety_orders price_step
      volume_scale step_scale tp_pct = Ok g ->
    g !! k = Some r ->
    Avg_Price r =
      round2
        (quot (spent_at base_order volume_scale k)
           (bought_at base_price base_order price_step volume_scale
              step_scale k))).
Proof.
  split; [|split].
  - intros. by eapply avg_price_of_running_sums.
  - intros T N bp bo n ps vs ss tp g r Hrun Hr.
    rewrite (returned_base_row _ _ _ _ _ _ _ _ Hrun) in Hr.
    by injection Hr as <-.
  - intros bp bo n ps vs ss tp g [|k] r Hvalid Hrun Hr.
    + apply valid_fraction in Hvalid as (Hp & Ho & _).
      rewrite (returned_base_row _ _ _ _ _ _ _ _ Hrun) in Hr.
      injection Hr as <-. cbn [base_row Avg_Price].
      f_equal. symmetry. by apply (base_average bp bo ps vs ss).
    + by eapply avg_price_of_running_sums.
Qed.

(** C10.  [calculate_strategy] raises [ZeroDivisionError] and returns no
    grid: in every arithmetic, when [base_price] is zero; on floats, when
    the deviation of some stage is exactly [100.0] and the price it applies
    to is finite, the buy price of that stage being then a zero by which the
    volume update divides; on exact fractions, when the deviation of some
    stage is exactly 100. *)
Theorem zero_division_cases :
  (forall (T : Type) (N : Numeric T) (base_price base_order : T)
      (safety_orders : Z) (price_step volume_scale step_scale tp_pct : T),
    is_zero base_price = true ->
    calculate_strategy base_price base_order safety_orders price_step
      volume_scale step_scale tp_pct = Raise ZeroDivisionError) /\
  (forall (base_price base_order : float) (safety_orders : Z)
      (price_step volume_scale step_scale tp_pct : float) (k : nat),
    (k < Z.to_nat safety_orders)%nat ->
    deviation_at price_step step_scale k = Float.of_int 100 ->
    Float.is_finite (buy_price_at base_price price_step step_scale k) = true ->
    is_zero (buy_price_at base_price price_step step_scale (S k)) = true /\
    calculate_strategy base_price base_order safety_orders price_step
      volume_scale step_scale tp_pct = Raise ZeroDivisionError) /\
  (forall (base_price base_order : Fraction) (safety_orders : Z)
      (price_step volume_scale step_scale tp_pct : Fraction) (k : nat),
    (k < Z.to_nat safety_orders)%nat ->
    deviation_at price_step step_scale k = Frac.of_int 100 ->
    buy_price_at base_price price_step step_scale (S k) = 0%Qc /\
    calculate_strategy base_price base_order safety_orders price_step
      volume_scale step_scale tp_pct = Raise ZeroDivisionError).
Proof.
  split; [|split].
  - intros. by apply raises_when_base_price_zero.
  - intros bp bo n ps vs ss tp k Hk Hdev Hfin.
    assert (Hzero : is_zero (buy_price_at bp ps ss (S k)) = true).
    { cbn [buy_price_at]. by apply full_deviation_zero_price. }
    split; [done|].
    apply (raises_when_buy_price_zero _ _ _ _ _ _ _ (S k)); [lia|done].
  - intros bp bo n ps vs ss tp k Hk Hdev.
    assert (Hzero : buy_price_at bp ps ss (S k) = 0%Qc).
    { cbn [buy_price_at]. by apply full_deviation_zero_fraction. }
    split; [done|].
    apply (raises_when_buy_price_zero _ _ _ _ _ _ _ (S k)); [lia|].
    by rewrite Hzero.
Qed.

(** ** Inputs on which the claims fail as stated *)

Section Counterexamples.
Import Float.

(** C2 fails as stated: with [price_step = 150] the valid parameters
    (100, 100, 2, 150, 1, 1, 1.5) give the buy prices 100, -50 and 25, on
    floats and on fractions alike: the last one is above the one before. *)
Lemma buy_prices_rise_after_negative_price :
  (valid (dec 100 0) (dec 100 0) 2 /\
   Float.ltb (dec 0 0) (dec 150 0) = true /\
   exists g,
     calculate_strategy (T:=float) (dec 100 0) (dec 100 0) 2 (dec 150 0)
       (dec 1 0) (dec 1 0) (dec 15 1) = Ok g /\
     Buy_Price <$> g = [dec 100 0; dec (-50) 0; dec 25 0] /\
     Float.ltb (dec 25 0) (dec (-50) 0) = false) /\
  (exists g,
     calculate_strategy (T:=Fraction) (Frac.frac 100 1) (Frac.frac 100 1) 2
       (Frac.frac 150 1) (Frac.frac 1 1) (Frac.frac 1 1) (Frac.frac 3 2) =
       Ok g /\
     this ∘ Buy_Price <$> g = [100 # 1; -50 # 1; 25 # 1] /\
     ~ (Frac.frac 25 1 < Frac.frac (-50) 1)%Qc).
Proof.
  split.
  - split; [by repeat split|]. split; [done|].
    eexists. split; [by vm_compute|]. by split.
  - eexists. split; [by vm_compute|]. by split.
Qed.

(** C5 fails as stated: with [price_step = 150] the valid parameters
    (100, 100, 1, 150, 1, 1, 1.5) buy the safety order at -50, the lowest
    price so far, and the average price of its record is -200. *)
Lemma average_below_lowest_price :
  (valid (dec 100 0) (dec 100 0) 1 /\
   Float.ltb (dec 0 0) (dec 150 0) = true /\
   exists r0 r1,
     calculate_strategy (T:=float) (dec 100 0) (dec 100 0) 1 (dec 150 0)
       (dec 1 0) (dec 1 0) (dec 15 1) = Ok [r0; r1] /\
     Buy_Price r1 = dec (-50) 0 /\
     Avg_Price r1 = dec (-200) 0 /\
     Float.ltb (Avg_Price r1) (Buy_Price r1) = true) /\
  (exists r0 r1,
     calculate_strategy (T:=Fraction) (Frac.frac 100 1) (Frac.frac 100 1) 1
       (Frac.frac 150 1) (Frac.frac 1 1) (Frac.frac 1 1) (Frac.frac 3 2) =
       Ok [r0; r1] /\
     this (Buy_Price r1) = -50 # 1 /\
     this (Avg_Price r1) = -200 # 1 /\
     (Avg_Price r1 < Buy_Price r1)%Qc).
Proof.
  split.
  - split; [by repeat split|]. split; [done|].
    do 2 eexists. split; [by vm_compute|]. by repeat split.
  - do 2 eexists. split; [by vm_compute|]. by repeat split.
Qed.

(** C4 fails as stated: with [base_price = 1.375] and
    [base_order = 100.0], valid parameters, the Base record shows the
    average price [1.38], the rounding of [base_price], while the quotient
    of the running sums, [100.0 / (100.0 / 1.375)], falls just below
    [1.375] and rounds to [1.37]. *)
Lemma base_average_is_not_the_rounded_quotient :
  valid (dec 1375 3) (dec 100 0) 0 /\
  exists r,
    calculate_strategy (T:=float) (dec 1375 3) (dec 100 0) 0 (dec 2 0)
      (dec 15 1) (dec 11 1) (dec 15 1) = Ok [r] /\
    Avg_Price r = dec 138 2 /\
    round2
      (quot (spent_at (dec 100 0) (dec 15 1) 0)
         (bought_at (dec 1375 3) (dec 100 0) (dec 2 0) (dec 15 1)
            (dec 11 1) 0)) = dec 137 2 /\
    Avg_Price r <>
      round2
        (quot (spent_at (dec 100 0) (dec 15 1) 0)
           (bought_at (dec 1375 3) (dec 100 0) (dec 2 0) (dec 15 1)
              (dec 11 1) 0)).
Proof.
  split; [by repeat split|]. eexists. split; [by vm_compute|].
  split; [by vm_compute|]. split; [by vm_compute|]. by vm_compute.
Qed.

End Counterexamples.

(** ** The theorems at concrete parameters *)

Section Examples.
Import Float.

Lemma scenario_A_returns : scenario_A = Ok scenario_A_rows.
Proof. by vm_compute. Qed.

Lemma scenario_A_valid :
  valid (T:=Fraction) (Frac.frac 50000 1) (Frac.frac 100 1) 2.
Proof. by repeat split. Defined.

(** [grid_shape] on scenario A: three records, labelled in order. *)
Lemma grid_shape_scenario_A :
  (0 <= 2)%Z /\
  exists g,
    scenario_A = Ok g /\
    Z.of_nat (length g) = 3 /\
    Step <$> g = ["Base"; "SO #1"; "SO #2"]%string.
Proof.
  assert (Hn : (0 <= 2)%Z) by lia. split; [exact Hn|].
  pose proof (grid_shape (dec 50000 0) (dec 100 0) 2 (dec 2 0) (dec 15 1)
                (dec 11 1) (dec 15 1) Hn) as W.
  destruct (zero_divisor _ _ _ _ _ _) eqn:Hz in W.
  - vm_compute in Hz. discriminate Hz.
  - exact W.
Defined.

(** [base_record_alone] on the base order of scenario A. *)
Lemma base_record_alone_scenario_A :
  valid (dec 50000 0) (dec 100 0) 0 /\
  calculate_strategy (T:=float) (dec 50000 0) (dec 100 0) 0 (dec 2 0)
    (dec 15 1) (dec 11 1) (dec 15 1) =
    Ok [ Row "Base" (dec 5000000 2) (dec 10000 2) (dec 10000 2)
           (dec 5000000 2) (dec 5075000 2) (dec 0 0) ].
Proof.
  assert (Hv : valid (dec 50000 0) (dec 100 0) 0) by (by repeat split).
  split; [exact Hv|].
  rewrite (base_record_alone (dec 50000 0) (dec 100 0) 0 (dec 2 0)
             (dec 15 1) (dec 11 1) (dec 15 1) Hv eq_refl).
  by vm_compute.
Defined.

(** [total_investment_rounds_the_sum] on the last record of scenario A:
    475.00 is the rounding of 100 + 150 + 225. *)
Lemma total_investment_scenario_A :
  exists r,
    scenario_A_rows !! 2%nat = Some r /\
    Order_Size r = round2 (dec 225 0) /\
    Total_Investment r =
      round2 (add (add (dec 100 0) (dec 150 0)) (dec 225 0)).
Proof.
  eexists. split; [reflexivity|].
  destruct (total_investment_rounds_the_sum (dec 50000 0) (dec 100 0) 2
              (dec 2 0) (dec 15 1) (dec 11 1) (dec 15 1) scenario_A_rows
              2%nat _ scenario_A_returns eq_refl) as [Hsize Htotal].
  split; [rewrite Hsize|rewrite Htotal]; by vm_compute.
Defined.

(** [buy_prices_decrease] on scenario A: 47922 < 49000. *)
Lemma buy_prices_decrease_scenario_A :
  valid (T:=Fraction) (Frac.frac 50000 1) (Frac.frac 100 1) 2 /\
  (exists g, scenario_A_exact = Ok g) /\
  (buy_price_at (Frac.frac 50000 1) (Frac.frac 2 1) (Frac.frac 11 10) 2 <
   buy_price_at (Frac.frac 50000 1) (Frac.frac 2 1) (Frac.frac 11 10) 1)%Qc.
Proof.
  split; [exact scenario_A_valid|].
  destruct (buy_prices_decrease (Frac.frac 50000 1) (Frac.frac 100 1) 2
              (Frac.frac 2 1) (Frac.frac 3 2) (Frac.frac 11 10)
              (Frac.frac 3 2) scenario_A_valid eq_refl eq_refl eq_refl
              eq_refl) as (Hrun & Hdrop & _).
  split; [by eexists|]. apply Hdrop. cbn. lia.
Defined.

(** [average_between_lowest_and_base] on the last stage of scenario A. *)
Lemma average_scenario_A :
  valid (T:=Fraction) (Frac.frac 50000 1) (Frac.frac 100 1) 2 /\
  let average :=
    average_at (Frac.frac 50000 1) (Frac.frac 100 1) (Frac.frac 2 1)
      (Frac.frac 3 2) (Frac.frac 11 10) 2 in
  (buy_price_at (Frac.frac 50000 1) (Frac.frac 2 1) (Frac.frac 11 10) 2
   <= average)%Qc /\
  (average <= Frac.frac 50000 1)%Qc.
Proof.
  split; [exact scenario_A_valid|].
  destruct (average_between_lowest_and_base (Frac.frac 50000 1)
              (Frac.frac 100 1) 2 (Frac.frac 2 1) (Frac.frac 3 2)
              (Frac.frac 11 10) (Frac.frac 3 2) scenario_A_valid eq_refl
              eq_refl eq_refl eq_refl) as (_ & Hbounds).
  destruct (Hbounds 2%nat ltac:(cbn; lia)) as (_ & Hlow & Hhigh & _).
  by split.
Defined.

(** [average_price_from_unrounded_sums] on scenario A: on floats, its
    first safety order and its Base record; on fractions, its Base
    record. *)
Lemma average_price_scenario_A :
  (exists r,
     scenario_A_rows !! 1%nat = Some r /\
     Avg_Price r =
       round2
         (quot (add (dec 100 0) (dec 150 0))
            (add (quot (dec 100 0) (dec 50000 0))
               (quot (dec 150 0) (dec 49000 0))))) /\
  (exists r,
     scenario_A_rows !! 0%nat = Some r /\
     Avg_Price r = round2 (dec 50000 0)) /\
  (exists g r,
     scenario_A_exact = Ok g /\ g !! 0%nat = Some r /\
     Avg_Price r =
       Frac.round2
         (Frac.frac 100 1 / (Frac.frac 100 1 / Frac.frac 50000 1))%Qc).
Proof.
  destruct average_price_from_unrounded_sums as (Hso & Hbase & Hexact).
  split; [|split].
  - eexists. split; [reflexivity|].
    rewrite (Hso float _ (dec 50000 0) (dec 100 0) 2 (dec 2 0) (dec 15 1)
               (dec 11 1) (dec 15 1) scenario_A_rows 0%nat _
               scenario_A_returns eq_refl).
    by vm_compute.
  - eexists. split; [reflexivity|].
    exact (Hbase float _ (dec 50000 0) (dec 100 0) 2 (dec 2 0) (dec 15 1)
             (dec 11 1) (dec 15 1) scenario_A_rows _ scenario_A_returns
             eq_refl).
  - destruct scenario_A_exact as [g|e] eqn:Hrun.
    + pose proof (returned_base_row _ _ _ _ _ _ _ _ Hrun) as Hbase_row.
      exists g, (base_row (Frac.frac 50000 1) (Frac.frac 100 1)
                   (Frac.frac 3 2)).
      split; [reflexivity|]. split; [exact Hbase_row|].
      exact (Hexact _ _ _ _ _ _ _ _ 0%nat _ scenario_A_valid Hrun Hbase_row).
    + vm_compute in Hrun. discriminate Hrun.
Defined.

(** [zero_division_cases]: a zero base price; a first deviation of 100%. *)
Lemma zero_division_examples :
  calculate_strategy (T:=float) (dec 0 0) (dec 100 0) 2 (dec 2 0) (dec 15 1)
    (dec 11 1) (dec 15 1) = Raise ZeroDivisionError /\
  calculate_strategy (T:=float) (dec 50000 0) (dec 100 0) 2 (dec 100 0)
    (dec 15 1) (dec 11 1) (dec 15 1) = Raise ZeroDivisionError /\
  calculate_strategy (T:=Fraction) (Frac.frac 50000 1) (Frac.frac 100 1) 2
    (Frac.frac 100 1) (Frac.frac 3 2) (Frac.frac 11 10) (Frac.frac 3 2) =
    Raise ZeroDivisionError.
Proof.
  destruct zero_division_cases as (Hbase & Hfloat & Hexact).
  split; [|split].
  - by apply Hbase.
  - apply (Hfloat _ _ _ _ _ _ _ 0%nat); [cbn; lia|reflexivity..].
  - apply (Hexact _ _ _ _ _ _ _ 0%nat); [cbn; lia|reflexivity].
Defined.

End Examples.

(** * The rest of the program: the page *)

(** A call of the calculator inside the page *)
Definition lift {A : Type} (r : result A) : outcome A :=
  match r with
  | Ok a => Returns a
  | Raise e => Raises (Arithmetic e)
  end.

Arguments p_base_price {T}.
Arguments p_base_order {T}.
Arguments p_safety_orders {T}.
Arguments p_price_step {T}.
Arguments p_volume_scale {T}.
Arguments p_step_scale {T}.
Arguments p_tp_pct {T}.
Arguments timestamp {T}.
Arguments params {T}.
Arguments snapshot {T}.

(** ** The page

    Streamlit runs [main] from the top at every interaction.  The pieces
    below are what one pass computes from the values of the sidebar and
    from the file. *)

Section Page.
Context `{Numeric T}.

(** [bot.calculate_strategy] on the unpacked dict of parameters *)
Definition calculate_with (p : parameters T) : result (list (row T)) :=
  calculate_strategy (p_base_price p) (p_base_order p) (p_safety_orders p)
    (p_price_step p) (p_volume_scale p) (p_step_scale p) (p_tp_pct p).

(** Lines 122-130: the button "Save Current Strategy" *)
Definition save_current (now save_name : string) (current_params : parameters T)
    (f : file T) : outcome (file T) :=
  g ← lift (calculate_with current_params);
  DCABot.save_strategy now save_name current_params g f.

(** [df[column].iloc[-1]], lines 149-151: [None] is pandas' [IndexError]. *)
Definition iloc_last (df : list (row T)) : option (row T) := last df.

(** [df[df['Step'] == triggered_step].iloc[0]], line 182 *)
Definition trigger_row (df : list (row T)) (triggered_step : string)
  : option (row T) :=
  head (filter (fun r => Step r = triggered_step) df).

(** Every strategy that line 163 can read out of the file,
    [saved[selected_strategy_name]] on what [load_all_strategies] returns,
    holds the grid that the calculator returns on the parameters saved with
    it. *)
Definition consistent (f : file T) : Prop :=
  forall data name strat,
    DCABot.load_all_strategies f = Returns data ->
    getitem name data = Returns (Strategy strat) ->
    calculate_with (params strat) = Ok (snapshot strat).

End Page.

(** * More properties *)

From Stdlib Require Import DecimalPos DecimalZ.

(** ** Labels *)

Lemma to_int_not_nil (z : Z) :
  Z.to_int z <> Decimal.Pos Decimal.Nil /\
  Z.to_int z <> Decimal.Neg Decimal.Nil.
Proof.
  destruct z as [|p|p]; cbn; split; try done;
    intros [= Hnil]; by apply (DecimalPos.Unsigned.to_uint_nonnil p).
Qed.

Lemma so_label_inj (i j : Z) : so_label i = so_label j -> i = j.
Proof.
  unfold so_label. intros [= Heq].
  change (NilZero.string_of_int (Z.to_int i) =
          NilZero.string_of_int (Z.to_int j)) in Heq.
  apply DecimalZ.to_int_inj.
  destruct (to_int_not_nil i) as [Hi Hi'], (to_int_not_nil j) as [Hj Hj'].
  pose proof (NilZero.isi _ Hi Hi') as Hparse.
  rewrite Heq, (NilZero.isi _ Hj Hj') in Hparse. by injection Hparse.
Qed.

Lemma so_label_not_base (i : Z) : so_label i <> "Base"%string.
Proof. done. Qed.

(** In a list whose elements have pairwise distinct keys, the first element
    with the key of the element at [k] is that element. *)
Lemma head_filter_key {A B : Type} `{EqDecision B} (key : A -> B)
    (l : list A) (k : nat) (x : A) :
  NoDup (key <$> l) -> l !! k = Some x ->
  head (filter (fun y => key y = key x) l) = Some x.
Proof.
  revert k. induction l as [|y l IH]; intros k Hnodup Hx; [done|].
  rewrite fmap_cons in Hnodup. apply NoDup_cons in Hnodup as [Hy Hnodup].
  destruct k as [|k].
  - injection Hx as ->. by rewrite filter_cons_True.
  - cbn in Hx. rewrite filter_cons_False; [by eapply IH|].
    intros Hkey. apply Hy. rewrite Hkey.
    apply list_elem_of_fmap. exists x. split; [done|].
    by eapply list_elem_of_lookup_2.
Qed.

Section MoreCalculatorFacts.
Context `{Numeric T}.

Variables (base_price base_order : T)
          (price_step volume_scale step_scale tp_pct : T).

Abbreviation rows :=
  (grid base_price base_order price_step volume_scale step_scale tp_pct).
Abbreviation zero_in :=
  (zero_divisor base_price base_order price_step volume_scale step_scale).

Lemma zero_divisor_mono (n n' : nat) :
  (n <= n')%nat -> zero_in n = true -> zero_in n' = true.
Proof.
  intros Hle. unfold zero_divisor. rewrite !orb_true_iff.
  intros [Hbase|Hstage]; [by left|right].
  apply existsb_exists in Hstage as (k & Hk%in_seq & Hzero).
  apply existsb_exists. exists k. split; [apply in_seq; lia|done].
Qed.

Lemma grid_take (n n' : nat) :
  (n <= n')%nat -> take (S n) (rows n') = rows n.
Proof.
  intros Hle. unfold grid. cbn [take]. f_equal.
  rewrite <- fmap_take, take_seq. by replace (n `min` n')%nat with n by lia.
Qed.

Lemma grid_labels_nodup (n : nat) : NoDup (Step <$> rows n).
Proof.
  rewrite grid_labels. apply NoDup_cons. split.
  - intros (i & Hi & _)%list_elem_of_fmap. by apply (so_label_not_base i).
  - apply NoDup_fmap_2; [exact so_label_inj|].
    unfold range. apply NoDup_fmap_2; [|apply NoDup_seq].
    intros i j Hij. lia.
Qed.

Lemma grid_total (n k : nat) (r : row T) :
  rows n !! k = Some r ->
  Total_Investment r = round2 (spent_at base_order volume_scale k).
Proof.
  destruct k as [|k].
  - by intros [= <-].
  - intros [_ ->]%grid_lookup_so. unfold so_row. cbn [Total_Investment].
    by rewrite spent_accum.
Qed.

(** X1.  Asking for more safety orders never changes the records already
    there: when the call with [safety_orders'] returns a grid, the call
    with any smaller [safety_orders] returns its first records; and when
    the call with [safety_orders] raises, so does the call with any larger
    count. *)
Theorem more_safety_orders_extend_the_grid (safety_orders safety_orders' : Z) :
  (safety_orders <= safety_orders')%Z ->
  (forall g',
     calculate_strategy base_price base_order safety_orders' price_step
       volume_scale step_scale tp_pct = Ok g' ->
     calculate_strategy base_price base_order safety_orders price_step
       volume_scale step_scale tp_pct =
       Ok (take (S (Z.to_nat safety_orders)) g')) /\
  (calculate_strategy base_price base_order safety_orders price_step
     volume_scale step_scale tp_pct = Raise ZeroDivisionError ->
   calculate_strategy base_price base_order safety_orders' price_step
     volume_scale step_scale tp_pct = Raise ZeroDivisionError).
Proof.
  intros Hle. rewrite !calculate_strategy_run.
  assert (Hnat : (Z.to_nat safety_orders <= Z.to_nat safety_orders')%nat)
    by lia.
  pose proof (zero_divisor_mono _ _ Hnat) as Hmono.
  destruct (zero_in (Z.to_nat safety_orders)).
  - rewrite Hmono by done. by split.
  - split; [|done]. destruct (zero_in (Z.to_nat safety_orders')); [done|].
    intros g' [= <-]. by rewrite grid_take.
Qed.

(** X2.  With [safety_orders <= 0] the loop body never runs: the call
    raises when [base_price] is zero and otherwise returns the Base record
    alone, whatever the other parameters. *)
Theorem no_safety_orders (safety_orders : Z) :
  (safety_orders <= 0)%Z ->
  calculate_strategy base_price base_order safety_orders price_step
    volume_scale step_scale tp_pct =
    if is_zero base_price then Raise ZeroDivisionError
    else Ok [ {| Step := "Base";
                 Buy_Price := round2 base_price;
                 Order_Size := round2 base_order;
                 Total_Investment := round2 base_order;
                 Avg_Price := round2 base_price;
                 TP_Target :=
                   round2
                     (mul base_price
                        (add (of_int 1) (quot tp_pct (of_int 100))));
                 Drop_pct := of_int 0 |} ].
Proof.
  intros Hn. rewrite calculate_strategy_run.
  replace (Z.to_nat safety_orders) with 0%nat by lia.
  unfold zero_divisor. cbn [seq existsb]. by rewrite orb_false_r.
Qed.

(** X3.  The summary metrics of the page read the last record of the
    grid: it always exists, it is the record of the deepest stage, and its
    total is the rounding of the sum of all the order sizes. *)
Theorem summary_reads_the_deepest_stage (safety_orders : Z)
    (df : list (row T)) :
  calculate_strategy base_price base_order safety_orders price_step
    volume_scale step_scale tp_pct = Ok df ->
  exists r,
    iloc_last df = Some r /\
    df !! Z.to_nat safety_orders = Some r /\
    Total_Investment r =
      round2 (spent_at base_order volume_scale (Z.to_nat safety_orders)).
Proof.
  rewrite calculate_strategy_run.
  destruct (zero_in _); [done|]. intros [= <-].
  unfold iloc_last. rewrite last_lookup, grid_length. cbn [pred].
  destruct (rows (Z.to_nat safety_orders) !! Z.to_nat safety_orders)
    as [r|] eqn:Hr.
  - exists r. split_and!; [done..|]. by eapply grid_total.
  - apply lookup_ge_None in Hr. rewrite grid_length in Hr. lia.
Qed.

(** X4.  The quick trigger lookup of the page never fails and finds the
    right record: the labels of a grid are pairwise distinct, so selecting
    the label of any record of the grid gives that record back. *)
Theorem trigger_row_finds_the_stage (safety_orders : Z)
    (df : list (row T)) (k : nat) (r : row T) :
  calculate_strategy base_price base_order safety_orders price_step
    volume_scale step_scale tp_pct = Ok df ->
  df !! k = Some r ->
  NoDup (Step <$> df) /\ trigger_row df (Step r) = Some r.
Proof.
  rewrite calculate_strategy_run.
  destruct (zero_in _); [done|]. intros [= <-] Hr.
  pose proof (grid_labels_nodup (Z.to_nat safety_orders)) as Hnodup.
  split; [done|]. unfold trigger_row. by eapply head_filter_key.
Qed.

End MoreCalculatorFacts.

(** ** The methods of the bot on the file *)

Section FileFacts.
Context {T : Type}.

Lemma save_returns (now name : string) (p : parameters T) (g : list (row T))
    (f f' : file T) :
  DCABot.save_strategy now name p g f = Returns f' ->
  exists data,
    f = Json data /\
    f' = Json (dict_set name (Strategy (Saved now p g)) data).
Proof.
  destruct f as [| | |v|data]; [done..|]. intros [= <-]. by exists data.
Qed.

Lemma delete_returns (name : string) (f f' : file T) (removed : bool) :
  DCABot.delete_strategy name f = Returns (removed, f') ->
  (exists data,
     f = Json data /\ f' = Json (dict_del name data) /\
     removed = dict_in name data) \/
  (exists v,
     f = NotObject v /\ f' = f /\ removed = false /\
     contains (T:=T) name (Other v) = Returns false).
Proof.
  destruct f as [| | |v|data]; [done..| |].
  - unfold DCABot.delete_strategy. cbn [DCABot.read mbind outcome_bind].
    destruct (contains (T:=T) name (Other v)) as [[]|e] eqn:Hname;
      cbn; [done| |done].
    intros [= <- <-]. right. by exists v.
  - intros Hdelete. left. exists data. split; [done|].
    destruct (dict_get name data) as [e|] eqn:Hname.
    + rewrite delete_present in Hdelete by (by rewrite Hname).
      injection Hdelete as <- <-. split; [done|]. symmetry.
      apply dict_in_true. by rewrite Hname.
    + rewrite delete_absent in Hdelete by done.
      injection Hdelete as <- <-. rewrite dict_del_absent by done.
      split; [done|]. symmetry. by apply dict_in_false.
Qed.


(** X6.  Saving then loading: after a [save_strategy] that returns,
    [load_all_strategies] returns a dict that maps the name to the
    timestamp, the parameters and the grid that were passed, unchanged,
    whether or not the name was taken, and maps every other name as
    before. *)
Theorem save_then_load_all (now name : string) (p : parameters T)
    (g : list (row T)) (f f' : file T) :
  DCABot.save_strategy now name p g f = Returns f' ->
  exists data data',
    DCABot.load_all_strategies f = Returns data /\
    DCABot.load_all_strategies f' = Returns data' /\
    forall other,
      getitem other data' =
        if decide (other = name) then Returns (Strategy (Saved now p g))
        else getitem other data.
Proof.
  intros (data & -> & ->)%save_returns.
  exists (Object data), (Object (dict_set name (Strategy (Saved now p g)) data)).
  split; [done|]. split; [done|]. intros other. cbn [getitem].
  rewrite dict_get_set. by destruct (decide (other = name)).
Qed.

(** X7.  Deleting: after a [delete_strategy] that returns, the name is
    gone from what [load_all_strategies] returns and every other name is
    as before; the value returned tells whether the name was there; and a
    second deletion of the same name returns [False] and leaves the file
    as it is. *)
Theorem delete_then_load_all (name : string) (f f' : file T)
    (removed : bool) :
  DCABot.delete_strategy name f = Returns (removed, f') ->
  exists data data',
    DCABot.load_all_strategies f = Returns data /\
    DCABot.load_all_strategies f' = Returns data' /\
    contains name data = Returns removed /\
    contains name data' = Returns false /\
    (forall other, other <> name ->
       getitem other data' = getitem other data /\
       contains other data' = contains other data) /\
    DCABot.delete_strategy name f' = Returns (false, f').
Proof.
  intros [(data & -> & -> & ->)|(v & -> & -> & -> & Hname)]%delete_returns.
  - exists (Object data), (Object (dict_del name data)).
    assert (Hgone : dict_in name (dict_del name data) = false).
    { apply dict_in_false, dict_get_del_eq. }
    split_and!; [done..| | |].
    + cbn [contains]. by rewrite Hgone.
    + intros other Hne. cbn [getitem contains]. unfold dict_in.
      by rewrite dict_get_del_ne.
    + apply delete_absent, dict_get_del_eq.
  - exists (Other v), (Other v). split_and!; [done..| | |]; [done|done|].
    unfold DCABot.delete_strategy. cbn [DCABot.read mbind outcome_bind].
    by rewrite Hname.
Qed.

(** X8.  Saving under a fresh name and deleting it again gives back the
    file there was, and the deletion returns [True]; in general the
    deletion undoes the save up to the entry that the save replaced. *)
Theorem save_then_delete_file (now name : string) (p : parameters T)
    (g : list (row T)) (f f' : file T) :
  DCABot.save_strategy now name p g f = Returns f' ->
  exists data f'',
    DCABot.load_all_strategies f = Returns (Object data) /\
    DCABot.delete_strategy name f' = Returns (true, f'') /\
    DCABot.load_all_strategies f'' = Returns (Object (dict_del name data)) /\
    (dict_get name data = None -> f'' = f).
Proof.
  intros (data & -> & ->)%save_returns.
  exists data, (Json (dict_del name data)). split; [done|]. split.
  - rewrite delete_present by (by rewrite dict_get_set_eq).
    by rewrite dict_del_set.
  - split; [done|]. intros Hfresh. by rewrite dict_del_absent.
Qed.

(** X9.  Two saves in a row.  Under one name the second wins: the file
    is the one that the second save alone leaves.  Under two names both
    orders leave files that hold the same entry under every name; the two
    files are the same when one of the names was already saved, since a
    name that is there keeps its place; when both names are new, each file
    lists them after the old entries in the order of the saves, so that the
    two files differ.  On a file where a save raises, both orders raise the
    same exception. *)
Theorem saves_compose (now1 now2 name1 name2 : string)
    (p1 p2 : parameters T) (g1 g2 : list (row T)) (f : file T) :
  let e1 := Strategy (Saved now1 p1 g1) in
  let e2 := Strategy (Saved now2 p2 g2) in
  let first :=
    f1 ← DCABot.save_strategy now1 name1 p1 g1 f;
    DCABot.save_strategy now2 name2 p2 g2 f1 in
  let second :=
    f2 ← DCABot.save_strategy now2 name2 p2 g2 f;
    DCABot.save_strategy now1 name1 p1 g1 f2 in
  if decide (name1 = name2) then
    first = DCABot.save_strategy now2 name2 p2 g2 f
  else
    match DCABot.read f with
    | Returns (Object data) =>
        exists data12 data21,
          first = Returns (Json data12) /\
          second = Returns (Json data21) /\
          (forall name, dict_get name data12 = dict_get name data21) /\
          if dict_in name1 data || dict_in name2 data
          then data12 = data21
          else
            data12 = data ++ [(name1, e1); (name2, e2)] /\
            data21 = data ++ [(name2, e2); (name1, e1)] /\
            data12 <> data21
    | Returns (Other v) => first = Raises TypeError /\ second = Raises TypeError
    | Raises e => first = Raises e /\ second = Raises e
    end.
Proof.
  intros e1 e2 first second.
  destruct (decide (name1 = name2)) as [->|Hne].
  - destruct f as [| | |v|data]; [done..|]. subst first. cbn.
    by rewrite dict_set_set.
  - destruct f as [| | |v|data]; [done..|]. cbn [DCABot.read].
    exists (dict_set name2 e2 (dict_set name1 e1 data)),
      (dict_set name1 e1 (dict_set name2 e2 data)).
    split; [done|]. split; [done|]. split.
    + intros name. rewrite !dict_get_set. by repeat case_decide; simplify_eq.
    + destruct (dict_in name1 data || dict_in name2 data) eqn:Hin.
      * by apply dict_set_comm.
      * apply orb_false_iff in Hin as [Hin1%dict_in_false Hin2%dict_in_false].
        assert (H12 : dict_set name2 e2 (dict_set name1 e1 data) =
                        data ++ [(name1, e1); (name2, e2)]).
        { rewrite (dict_set_fresh name1) by done.
          rewrite dict_set_fresh by (by rewrite <- (dict_set_fresh name1),
            dict_get_set_ne by done).
          by rewrite <- app_assoc. }
        assert (H21 : dict_set name1 e1 (dict_set name2 e2 data) =
                        data ++ [(name2, e2); (name1, e1)]).
        { rewrite (dict_set_fresh name2) by done.
          rewrite dict_set_fresh by (by rewrite <- (dict_set_fresh name2),
            dict_get_set_ne by done).
          by rewrite <- app_assoc. }
        rewrite H12, H21. split; [done|]. split; [done|].
        intros Heq%app_inv_head. by injection Heq.
Qed.

End FileFacts.

(** ** The page and the store together *)

Section PageFacts.
Context `{Numeric T}.

Lemma consistent_insert (now name : string) (p : parameters T)
    (g : list (row T)) (data : store T) :
  consistent (Json data) -> calculate_with p = Ok g ->
  consistent (Json (dict_set name (Strategy (Saved now p g)) data)).
Proof.
  intros Hdata Hg doc other strat [= <-]. cbn [getitem].
  rewrite dict_get_set. destruct (decide (other = name)) as [->|Hne].
  - by intros [= <-].
  - intros Hother. by apply (Hdata (Object data) other).
Qed.

Lemma consistent_delete (name : string) (data : store T) :
  consistent (Json data) -> consistent (Json (dict_del name data)).
Proof.
  intros Hdata doc other strat [= <-]. cbn [getitem].
  destruct (decide (other = name)) as [->|Hne].
  - by rewrite dict_get_del_eq.
  - rewrite dict_get_del_ne by done. intros Hother.
    by apply (Hdata (Object data) other).
Qed.

(** X10.  The page keeps every saved grid in step with its parameters.
    If each strategy in the file holds the grid of its own parameters, then
    so does the file after the button "Save Current Strategy" and after a
    deletion, and the save stores under the name the parameters of the
    sidebar with the grid just computed from them.  When the calculator
    raises on those parameters the button raises the same exception,
    whatever the file holds: the file is not opened. *)
Theorem page_keeps_the_store_consistent (f : file T) :
  consistent f ->
  (forall now name p f',
     save_current now name p f = Returns f' ->
     consistent f' /\
     exists g data',
       calculate_with p = Ok g /\
       DCABot.load_all_strategies f' = Returns data' /\
       getitem name data' = Returns (Strategy (Saved now p g))) /\
  (forall name removed f',
     DCABot.delete_strategy name f = Returns (removed, f') ->
     consistent f') /\
  (forall now name p e (f0 : file T),
     calculate_with p = Raise e ->
     save_current now name p f0 = Raises (Arithmetic e)).
Proof.
  intros Hf. split_and!.
  - intros now name p f'. unfold save_current.
    destruct (calculate_with p) as [g|e] eqn:Hg; [|done]. cbn [lift mbind].
    cbn [outcome_bind]. intros (data & -> & ->)%save_returns. split.
    + by apply consistent_insert.
    + exists g, (Object (dict_set name (Strategy (Saved now p g)) data)).
      split; [done|]. split; [done|]. cbn [getitem].
      by rewrite dict_get_set_eq.
  - intros name removed f'
      [(data & -> & -> & _)|(v & -> & -> & _)]%delete_returns; [|done].
    by apply consistent_delete.
  - intros now name p e f0 Hg. unfold save_current. by rewrite Hg.
Qed.

End PageFacts.

(** ** A base price that is not a number *)

Section NotANumber.
Import Float.

Variables (base_order : float) (safety_orders : Z)
          (price_step volume_scale step_scale tp_pct : float).

Abbreviation stage_nan :=
  (accum_at (T:=float) S754_nan base_order price_step volume_scale
     step_scale).

Lemma nan_accum (k : nat) :
  price (stage_nan k) = S754_nan /\ bought (stage_nan k) = S754_nan.
Proof.
  induction k as [|k [Hprice Hbought]].
  - split; [done|]. cbn. by destruct base_order.
  - cbn [accum_at next_accum price bought]. by rewrite Hprice, Hbought.
Qed.

(** X11.  A NaN base price is not rejected: on floats, whatever the other
    parameters, the call raises nothing and returns its
    [max safety_orders 0 + 1] records, and the buy price, the average
    price, the take-profit target and the drop of every safety-order record
    are NaN. *)
Theorem nan_base_price_is_not_rejected :
  exists g,
    calculate_strategy (T:=float) S754_nan base_order safety_orders
      price_step volume_scale step_scale tp_pct = Ok g /\
    length g = S (Z.to_nat safety_orders) /\
    forall (k : nat) (r : row float),
      g !! S k = Some r ->
      Buy_Price r = S754_nan /\ Avg_Price r = S754_nan /\
      TP_Target r = S754_nan /\ Drop_pct r = S754_nan.
Proof.
  eexists. split; [|split].
  - rewrite calculate_strategy_run.
    replace (zero_divisor _ _ _ _ _ _) with false; [done|]. symmetry.
    unfold zero_divisor. cbn [is_zero float_numeric Float.is_zero orb].
    destruct (existsb _ _) eqn:Hex; [|done].
    apply existsb_exists in Hex as (k & _ & Hzero).
    unfold zero_divisor_at in Hzero.
    destruct (nan_accum k) as [Hprice Hbought].
    by rewrite Hprice, Hbought in Hzero.
  - apply grid_length.
  - intros k r [_ ->]%grid_lookup_so.
    destruct (nan_accum (S k)) as [Hprice Hbought].
    unfold so_row, average, take_profit.
    cbn [Buy_Price Avg_Price TP_Target Drop_pct].
    rewrite Hprice, Hbought.
    by destruct (spent (stage_nan (S k))).
Qed.

End NotANumber.

(** ** More order and rounding on [Fraction] *)

Section ExactOrder.
Local Open Scope Qc_scope.

Lemma average_drop_step (S V p p' o : Qc) :
  0 < V -> 0 < p' -> p' < p -> 0 < o -> p * V <= S ->
  (S + o) / (V + o / p') < S / V.
Proof.
  intros HV Hp' Hpp Ho HpS.
  pose proof (div_pos o p' Ho Hp') as Hq0.
  pose proof (div_def o p' Hp') as Hq.
  revert Hq0 Hq. generalize (o / p'). intros q Hq0 Hq.
  assert (HVq : 0 < V + q) by (order_to_Q; lra).
  pose proof (div_def (S + o) (V + q) HVq) as Ha'.
  pose proof (div_def S V HV) as Ha.
  revert Ha' Ha. generalize ((S + o) / (V + q)) (S / V). intros a' a Ha' Ha.
  order_to_Q.
  assert (this p' * this V < this S)%Q by nra.
  assert (this o * this V < this S * this q)%Q by nra.
  assert (Hlt : ((this V + this q) * this a' * this V
          < this V * this a * (this V + this q))%Q) by nra.
  assert (Hu : (0 < this V * (this V + this q))%Q) by nra.
  destruct (Qlt_le_dec (this a') (this a)) as [|Hge]; [done|exfalso].
  assert (this V * (this V + this q) * this a
          <= this V * (this V + this q) * this a')%Q by nra.
  lra.
Qed.

Lemma drop_mono (b p p' h : Qc) :
  0 < b -> 0 < h -> p' < p -> (b - p) / b * h < (b - p') / b * h.
Proof.
  intros Hb Hh Hpp.
  pose proof (div_def (b - p) b Hb) as Hd.
  pose proof (div_def (b - p') b Hb) as Hd'.
  revert Hd Hd'. generalize ((b - p) / b) ((b - p') / b). intros d d' Hd Hd'.
  order_to_Q.
  assert (this d < this d')%Q by nra. nra.
Qed.

Lemma drop_bounds (b p : Qc) :
  0 < b -> 0 < p -> p <= b ->
  0 <= (b - p) / b * Frac.of_int 100 /\
  (b - p) / b * Frac.of_int 100 <= Frac.of_int 100.
Proof.
  intros Hb Hp Hpb.
  pose proof (div_def (b - p) b Hb) as Hd.
  revert Hd. generalize ((b - p) / b). intros d Hd.
  order_to_Q.
  assert (0 <= this d <= 1)%Q by (split; nra). split; lra.
Qed.

Lemma markup (a a' t : Qc) :
  0 <= t -> 0 < a' -> a' <= a ->
  a <= a * (1 + t) /\ a' * (1 + t) <= a * (1 + t).
Proof. intros Ht Ha Haa. order_to_Q. split; nra. Qed.

Lemma percent_nonneg (t : Qc) : 0 <= t -> 0 <= t / Frac.of_int 100.
Proof.
  intros Ht. pose proof (percent_def t) as Hc.
  revert Hc. generalize (t / Frac.of_int 100). intros c Hc. order_to_Q. lra.
Qed.

Lemma round2_error (x : Fraction) :
  - Frac.frac 1 200 <= Frac.round2 x - x /\
  Frac.round2 x - x <= Frac.frac 1 200.
Proof.
  unfold Frac.round2, Frac.frac.
  pose proof (this_mult x (Frac.of_int 100)) as Hy.
  revert Hy. generalize (x * Frac.of_int 100)%Qc. intros y Hy.
  pose proof (round_half_even_bounds (Qnum y) (Qden y)) as HN.
  revert Hy HN. generalize (round_half_even (Qnum y) (Qden y)).
  destruct (this y) as [a b]. cbn [Qnum Qden].
  intros N Hy HN.
  assert (Hlow : ((a # b) - (1 # 2) <= inject_Z N)%Q).
  { unfold Qle, Qminus, Qplus, Qopp, inject_Z. cbn. nia. }
  assert (Hup : (inject_Z N <= (a # b) + (1 # 2))%Q).
  { unfold Qle, Qplus, inject_Z. cbn. nia. }
  assert (HN100 : (N # 100 == inject_Z N * (1 # 100))%Q).
  { unfold Qeq, Qmult, inject_Z. cbn. lia. }
  unfold Qcle. rewrite !this_minus, this_opp, !this_Q2Qc, HN100.
  change (this (Frac.of_int 100)) with 100%Q in Hy.
  rewrite Hy in Hlow, Hup. clear HN100 HN Hy.
  revert Hlow Hup. generalize (inject_Z N). intros n Hlow Hup. split; lra.
Qed.

End ExactOrder.

(** ** More of the grid in exact arithmetic *)

Section ExactGrid.
Local Open Scope Qc_scope.

Variables (base_price base_order : Fraction) (safety_orders : Z)
          (price_step volume_scale step_scale tp_pct : Fraction).

Abbreviation stage :=
  (accum_at base_price base_order price_step volume_scale step_scale).
Abbreviation rows :=
  (grid base_price base_order price_step volume_scale step_scale tp_pct).
Abbreviation run :=
  (calculate_strategy base_price base_order safety_orders price_step
     volume_scale step_scale tp_pct).
Abbreviation price_of := (buy_price_at base_price price_step step_scale).
Abbreviation size_of := (order_size_at base_order volume_scale).
Abbreviation spent_to := (spent_at base_order volume_scale).
Abbreviation bought_to :=
  (bought_at base_price base_order price_step volume_scale step_scale).
Abbreviation average_of :=
  (average_at base_price base_order price_step volume_scale step_scale).
Abbreviation is_sound :=
  (sound base_price base_order safety_orders price_step volume_scale
     step_scale).

(** One more safety order, on sound parameters *)
Lemma stage_step (k : nat) :
  is_sound -> (k < Z.to_nat safety_orders)%nat ->
  healthy base_price (stage k) /\ healthy base_price (stage (S k)) /\
  price (stage (S k)) < price (stage k) /\
  0 < size (stage k) * volume_scale /\
  spent (stage (S k)) = spent (stage k) + size (stage k) * volume_scale /\
  bought (stage (S k)) =
    bought (stage k) + size (stage k) * volume_scale / price (stage (S k)).
Proof.
  intros Hsound Hk.
  pose proof (healthy_at _ _ _ _ _ _ k Hsound ltac:(lia)) as Hk0.
  pose proof (healthy_at _ _ _ _ _ _ (S k) Hsound ltac:(lia)) as Hk1.
  pose proof (price_decreases _ _ _ _ _ _ k Hsound Hk) as Hdrop.
  rewrite <- !(price_accum base_price base_order price_step volume_scale)
    in Hdrop.
  pose proof Hsound as (_ & _ & Hvs & _).
  pose proof Hk0 as (_ & _ & Hsize & _).
  split_and!; try done. by apply mult_pos.
Qed.

Lemma average_accum (k : nat) :
  average_of k = spent (stage k) / bought (stage k).
Proof. unfold average_at. by rewrite spent_accum, bought_accum. Qed.

Lemma displayed_total (n k : nat) (r : row Fraction) :
  rows n !! k = Some r -> Total_Investment r = Frac.round2 (spent_to k).
Proof. exact (grid_total _ _ _ _ _ _ n k r). Qed.

Lemma displayed_avg (n k : nat) (r : row Fraction) :
  0 < base_price -> 0 < base_order ->
  rows n !! k = Some r -> Avg_Price r = Frac.round2 (average_of k).
Proof.
  intros Hp Ho. destruct k as [|k].
  - intros [= <-]. cbn [base_row Avg_Price]. by rewrite base_average.
  - apply displayed_average.
Qed.

(** X12.  In exact arithmetic, on valid parameters with positive steps and
    scales and deviations below 100%, every safety order adds money and
    volume: the unrounded total invested and the unrounded volume bought
    grow strictly from stage to stage, and the displayed total invested
    never decreases from one record to the next. *)
Theorem money_and_volume_grow :
  valid base_price base_order safety_orders ->
  0 < price_step -> 0 < volume_scale -> 0 < step_scale ->
  deviations_below_100 price_step step_scale (Z.to_nat safety_orders) = true ->
  let n := Z.to_nat safety_orders in
  (forall k, (k < n)%nat ->
     spent_to k < spent_to (S k) /\ bought_to k < bought_to (S k)) /\
  (forall (k : nat) (r r' : row Fraction),
     rows n !! k = Some r -> rows n !! S k = Some r' ->
     Total_Investment r <= Total_Investment r').
Proof.
  intros Hvalid Hps Hvs Hss Hdev n.
  assert (Hsound : is_sound) by done.
  assert (Hgrow : forall k, (k < n)%nat ->
            spent_to k < spent_to (S k) /\ bought_to k < bought_to (S k)).
  { intros k Hk.
    rewrite <- !(spent_accum base_price base_order price_step volume_scale
                   step_scale), <- !bought_accum.
    destruct (stage_step k Hsound Hk)
      as (_ & (Hprice & _) & _ & Hsize & -> & ->).
    pose proof (div_pos _ _ Hsize Hprice) as Hvolume.
    revert Hsize Hvolume.
    generalize (size (stage k) * volume_scale)
      (size (stage k) * volume_scale / price (stage (S k))).
    intros o q Ho Hq. order_to_Q. split; lra. }
  split; [done|]. intros k r r' Hr Hr'.
  rewrite (displayed_total _ _ _ Hr), (displayed_total _ _ _ Hr').
  apply grid_lookup_so in Hr' as [Hk _].
  apply round2_mono, Qclt_le_weak, Hgrow. lia.
Qed.

Lemma average_price_step (k : nat) :
  is_sound -> (k < Z.to_nat safety_orders)%nat ->
  average_of (S k) < average_of k.
Proof.
  intros Hsound Hk. rewrite !average_accum.
  destruct (stage_step k Hsound Hk)
    as ((_ & _ & _ & HV & HpS & _) & (Hprice & _) & Hdrop & Hsize & ->
        & ->).
  by apply (average_drop_step _ _ (price (stage k))).
Qed.

(** X13.  In exact arithmetic, on the same parameters, every safety order
    pulls the average price down: the unrounded average price falls
    strictly from stage to stage, and the displayed average price never
    increases from one record to the next. *)
Theorem average_price_falls :
  valid base_price base_order safety_orders ->
  0 < price_step -> 0 < volume_scale -> 0 < step_scale ->
  deviations_below_100 price_step step_scale (Z.to_nat safety_orders) = true ->
  let n := Z.to_nat safety_orders in
  (forall k, (k < n)%nat -> average_of (S k) < average_of k) /\
  (forall (k : nat) (r r' : row Fraction),
     rows n !! k = Some r -> rows n !! S k = Some r' ->
     Avg_Price r' <= Avg_Price r).
Proof.
  intros Hvalid Hps Hvs Hss Hdev n.
  assert (Hsound : is_sound) by done.
  assert (Hfall : forall k, (k < n)%nat -> average_of (S k) < average_of k).
  { intros k Hk. by apply average_price_step. }
  split; [done|]. intros k r r' Hr Hr'.
  apply valid_fraction in Hvalid as (Hp & Ho & _).
  rewrite (displayed_avg _ _ _ Hp Ho Hr), (displayed_avg _ _ _ Hp Ho Hr').
  apply grid_lookup_so in Hr' as [Hk _].
  apply round2_mono, Qclt_le_weak, Hfall. lia.
Qed.

Lemma stage_positive (k : nat) :
  is_sound -> (k <= Z.to_nat safety_orders)%nat ->
  0 < price_of k /\ price_of k <= average_of k /\
  average_of k <= base_price.
Proof.
  intros Hsound Hk.
  destruct (healthy_at _ _ _ _ _ _ k Hsound Hk) as (Hprice & _).
  rewrite price_accum in Hprice.
  by destruct (average_within _ _ _ _ _ _ k Hsound Hk).
Qed.

Lemma lookup_in_range (n k : nat) (r : row Fraction) :
  rows n !! k = Some r -> (k <= n)%nat.
Proof.
  intros Hr. apply lookup_lt_Some in Hr. rewrite grid_length in Hr. lia.
Qed.

Lemma displayed_tp (n k : nat) (r : row Fraction) :
  0 < base_price -> 0 < base_order ->
  rows n !! k = Some r ->
  TP_Target r =
    Frac.round2 (average_of k * (1 + tp_pct / Frac.of_int 100)).
Proof.
  intros Hp Ho. destruct k as [|k].
  - intros [= <-]. cbn [base_row TP_Target]. by rewrite base_average.
  - intros [_ ->]%grid_lookup_so. unfold so_row. cbn [TP_Target].
    by rewrite average_accum.
Qed.

(** X14.  In exact arithmetic, on the same parameters and with
    [tp_pct >= 0], the displayed take-profit target of every record is at
    least its displayed average price, and it never increases from one
    record to the next: each safety order brings the exit closer. *)
Theorem take_profit_follows_the_average :
  valid base_price base_order safety_orders ->
  0 < price_step -> 0 < volume_scale -> 0 < step_scale ->
  deviations_below_100 price_step step_scale (Z.to_nat safety_orders) = true ->
  0 <= tp_pct ->
  let n := Z.to_nat safety_orders in
  (forall (k : nat) (r : row Fraction),
     rows n !! k = Some r -> Avg_Price r <= TP_Target r) /\
  (forall (k : nat) (r r' : row Fraction),
     rows n !! k = Some r -> rows n !! S k = Some r' ->
     TP_Target r' <= TP_Target r).
Proof.
  intros Hvalid Hps Hvs Hss Hdev Htp n.
  assert (Hsound : is_sound) by done.
  apply valid_fraction in Hvalid as (Hp & Ho & _).
  pose proof (percent_nonneg _ Htp) as Ht.
  split.
  - intros k r Hr. pose proof (lookup_in_range _ _ _ Hr) as Hk.
    rewrite (displayed_avg _ _ _ Hp Ho Hr), (displayed_tp _ _ _ Hp Ho Hr).
    destruct (stage_positive k Hsound Hk) as (Hprice & Hlow & _).
    apply round2_mono.
    apply (markup _ (average_of k)); [done| |apply Qcle_refl].
    by eapply Qclt_le_trans.
  - intros k r r' Hr Hr'. pose proof (lookup_in_range _ _ _ Hr') as Hk.
    rewrite (displayed_tp _ _ _ Hp Ho Hr), (displayed_tp _ _ _ Hp Ho Hr').
    destruct (stage_positive (S k) Hsound Hk) as (Hprice & Hlow & _).
    pose proof (average_price_step k Hsound ltac:(fold n; lia)) as Hfall.
    apply round2_mono.
    apply (markup _ (average_of (S k))); [done| |by apply Qclt_le_weak].
    by eapply Qclt_le_trans.
Qed.

(** Line 53, unrolled: the unrounded drop of stage [k] from the base
    price, in percent *)
Definition drop_at (k : nat) : Fraction :=
  (base_price - price_of k) / base_price * Frac.of_int 100.

Lemma round2_int (z : Z) : Frac.round2 (Frac.of_int z) = Frac.of_int z.
Proof.
  apply Qc_is_canon. unfold Frac.round2, Frac.frac, Frac.of_int.
  rewrite this_Q2Qc.
  assert (Hcent : (Q2Qc (inject_Z z) * Q2Qc (inject_Z 100))%Qc
                  = Q2Qc (inject_Z (z * 100))).
  { apply Qc_is_canon. rewrite this_mult, !this_Q2Qc.
    by rewrite inject_Z_mult. }
  rewrite Hcent. replace (this (Q2Qc (inject_Z (z * 100))))
    with (inject_Z (z * 100)).
  - cbn [Qnum Qden inject_Z]. unfold round_half_even.
    rewrite Z.div_1_r, Z.mod_1_r. cbn [Z.mul Z.compare].
    rewrite this_Q2Qc. unfold Qeq, inject_Z. cbn [Qnum Qden].
    change (2 * 0 ?= 1)%Z with Lt. cbv iota. lia.
  - symmetry. apply Qred_identity. cbn [Qnum Qden inject_Z].
    apply Z.gcd_1_r.
Qed.

Lemma drop_at_base : 0 < base_price -> drop_at 0 = Frac.of_int 0.
Proof.
  intros Hp. unfold drop_at. cbn [buy_price_at].
  replace (base_price - base_price) with 0 by ring.
  unfold Qcdiv. rewrite !Qcmult_0_l. by apply Qc_is_canon.
Qed.

Lemma displayed_drop (n k : nat) (r : row Fraction) :
  0 < base_price ->
  rows n !! k = Some r -> Drop_pct r = Frac.round2 (drop_at k).
Proof.
  intros Hp. destruct k as [|k].
  - intros [= <-]. cbn [base_row Drop_pct].
    by rewrite drop_at_base, round2_int.
  - intros [_ ->]%grid_lookup_so. unfold so_row, drop_at.
    cbn [Drop_pct]. by rewrite price_accum.
Qed.

(** X15.  In exact arithmetic, on the same parameters, the drop from the
    base price grows strictly from stage to stage and stays between 0 and
    100 percent; the displayed "Drop %" never decreases from one record to
    the next and lies between 0 and 100. *)
Theorem drop_grows_within_100 :
  valid base_price base_order safety_orders ->
  0 < price_step -> 0 < volume_scale -> 0 < step_scale ->
  deviations_below_100 price_step step_scale (Z.to_nat safety_orders) = true ->
  let n := Z.to_nat safety_orders in
  (forall k, (k < n)%nat -> drop_at k < drop_at (S k)) /\
  (forall k, (k <= n)%nat ->
     0 <= drop_at k /\ drop_at k <= Frac.of_int 100) /\
  (forall (k : nat) (r r' : row Fraction),
     rows n !! k = Some r -> rows n !! S k = Some r' ->
     Drop_pct r <= Drop_pct r') /\
  (forall (k : nat) (r : row Fraction),
     rows n !! k = Some r ->
     Frac.of_int 0 <= Drop_pct r /\ Drop_pct r <= Frac.of_int 100).
Proof.
  intros Hvalid Hps Hvs Hss Hdev n.
  assert (Hsound : is_sound) by done.
  apply valid_fraction in Hvalid as (Hp & Ho & _).
  assert (Hgrow : forall k, (k < n)%nat -> drop_at k < drop_at (S k)).
  { intros k Hk. unfold drop_at. apply drop_mono; [done|done|].
    by apply (price_decreases _ base_order safety_orders _ volume_scale). }
  assert (Hin : forall k, (k <= n)%nat ->
            0 <= drop_at k /\ drop_at k <= Frac.of_int 100).
  { intros k Hk. destruct (stage_positive k Hsound Hk) as (Hprice & _).
    unfold drop_at. apply drop_bounds; [done|done|].
    apply (price_antitone _ _ _ _ _ _ 0 k Hsound). lia. }
  split_and!; try done.
  - intros k r r' Hr Hr'. pose proof (lookup_in_range _ _ _ Hr') as Hk.
    rewrite (displayed_drop _ _ _ Hp Hr), (displayed_drop _ _ _ Hp Hr').
    apply round2_mono, Qclt_le_weak, Hgrow. lia.
  - intros k r Hr. pose proof (lookup_in_range _ _ _ Hr) as Hk.
    rewrite (displayed_drop _ _ _ Hp Hr).
    destruct (Hin k Hk) as [Hlow Hhigh].
    split.
    + replace (Frac.of_int 0) with (Frac.round2 (Frac.of_int 0))
        by apply round2_int.
      by apply round2_mono.
    + replace (Frac.of_int 100) with (Frac.round2 (Frac.of_int 100))
        by apply round2_int.
      by apply round2_mono.
Qed.

(** [ring] on equations between fractions *)
Ltac qc_ring := unfold Fraction in *; ring.

Lemma size_power (k : nat) : size_of k = base_order * volume_scale ^ k.
Proof.
  induction k as [|k IH].
  { change (size_of 0) with base_order. cbn [Qcpower]. qc_ring. }
  change (size_of (S k)) with (size_of k * volume_scale).
  rewrite IH. cbn [Qcpower]. qc_ring.
Qed.

Lemma spent_next (k : nat) : spent_to (S k) = spent_to k + size_of (S k).
Proof.
  unfold spent_at. rewrite seq_S, fmap_app. cbn [fmap list_fmap].
  by rewrite sum_onto_snoc.
Qed.

Lemma of_int_succ (k : nat) :
  Frac.of_int (Z.of_nat (S k)) = Frac.of_int (Z.of_nat k) + 1.
Proof.
  apply Qc_is_canon. unfold Frac.of_int.
  rewrite this_plus, !this_Q2Qc, Nat2Z.inj_succ, <- Z.add_1_r.
  by rewrite inject_Z_plus.
Qed.

(** X16.  In exact arithmetic the order sizes form a geometric sequence
    and the money spent is its partial sum, whatever the parameters: the
    order of stage [k] is [base_order * volume_scale^k], the deviation
    applied after [k] stages is [price_step * step_scale^k], the total
    invested up to stage [k] satisfies
    [(volume_scale - 1) * total = base_order * (volume_scale^(k+1) - 1)],
    and with [volume_scale = 1] it is [(k + 1) * base_order]. *)
Theorem order_sizes_are_geometric (k : nat) :
  size_of k = base_order * volume_scale ^ k /\
  deviation_at price_step step_scale k = price_step * step_scale ^ k /\
  (volume_scale - 1) * spent_to k =
    base_order * (volume_scale ^ S k - 1) /\
  (volume_scale = 1 ->
   spent_to k = base_order * Frac.of_int (Z.of_nat (S k))).
Proof.
  split_and!.
  - apply size_power.
  - induction k as [|k IH].
    { change (deviation_at price_step step_scale 0) with price_step.
      cbn [Qcpower]. qc_ring. }
    change (deviation_at price_step step_scale (S k))
      with (deviation_at price_step step_scale k * step_scale).
    rewrite IH. cbn [Qcpower]. qc_ring.
  - induction k as [|k IH].
    { change (spent_to 0) with base_order. cbn [Qcpower]. qc_ring. }
    rewrite spent_next, Qcmult_plus_distr_r, IH, size_power.
    cbn [Qcpower]. qc_ring.
  - intros Hone. induction k as [|k IH].
    + change (spent_to 0) with base_order.
      replace (Frac.of_int (Z.of_nat 1)) with 1 by by apply Qc_is_canon.
      qc_ring.
    + rewrite spent_next, IH, size_power, Hone, Qcpower_1.
      rewrite (of_int_succ (S k)). qc_ring.
Qed.

(** X17.  In exact arithmetic every displayed buy price, order size and
    total invested is within half a cent of the unrounded value it
    stands for. *)
Theorem displayed_within_half_a_cent (g : list (row Fraction)) (k : nat)
    (r : row Fraction) :
  run = Ok g ->
  g !! k = Some r ->
  let close (x y : Fraction) :=
    - Frac.frac 1 200 <= x - y /\ x - y <= Frac.frac 1 200 in
  close (Buy_Price r) (price_of k) /\
  close (Order_Size r) (size_of k) /\
  close (Total_Investment r) (spent_to k).
Proof.
  rewrite calculate_strategy_run.
  destruct (zero_divisor _ _ _ _ _ _); [done|]. intros [= <-] Hr close.
  rewrite (displayed_price _ _ _ _ _ _ _ _ _ Hr), (displayed_total _ _ _ Hr).
  assert (Hsize : Order_Size r = Frac.round2 (size_of k)).
  { destruct k as [|k].
    - by injection Hr as <-.
    - apply grid_lookup_so in Hr as [_ ->]. unfold so_row.
      cbn [Order_Size]. by rewrite size_accum. }
  rewrite Hsize. unfold close. split_and!; apply round2_error.
Qed.

Lemma scaled_stage (c : Fraction) (k : nat) :
  accum_at base_price (c * base_order) price_step volume_scale step_scale k =
    {| spent := c * spent (stage k);
       bought := c * bought (stage k);
       price := price (stage k);
       size := c * size (stage k);
       deviation := deviation (stage k) |}.
Proof.
  induction k as [|k IH].
  - unfold accum_at, accum0. cbn [spent bought price size deviation].
    f_equal. change ((c * base_order) / base_price
                     = c * (base_order / base_price)).
    unfold Qcdiv. qc_ring.
  - cbn [accum_at]. rewrite IH, !next_accum_fraction.
    cbn [spent bought price size deviation]. f_equal.
    + qc_ring.
    + unfold Qcdiv. qc_ring.
    + qc_ring.
Qed.

Lemma scaled_quot (c x y : Fraction) : c <> 0 -> (c * x) / (c * y) = x / y.
Proof.
  intros Hc. destruct (Qc_eq_dec y 0) as [->|Hy].
  - rewrite Qcmult_0_r. unfold Qcdiv.
    replace (/ 0) with 0 by by apply Qc_is_canon. qc_ring.
  - unfold Fraction in *. by field.
Qed.

Lemma scaled_zero (c x : Fraction) :
  c <> 0 -> Frac.is_zero (c * x) = Frac.is_zero x.
Proof.
  intros Hc. destruct (Frac.is_zero x) eqn:Hx.
  - apply Frac.is_zero_spec in Hx as ->. apply Frac.is_zero_spec.
    apply Qcmult_0_r.
  - destruct (Frac.is_zero (c * x)) eqn:Hcx; [|done].
    apply Frac.is_zero_spec, Qcmult_integral in Hcx as [?| ->]; [done|].
    by rewrite (proj2 (Frac.is_zero_spec 0)) in Hx.
Qed.

Lemma scaled_zero_divisor (c : Fraction) (n : nat) :
  c <> 0 ->
  zero_divisor base_price (c * base_order) price_step volume_scale
    step_scale n =
  zero_divisor base_price base_order price_step volume_scale step_scale n.
Proof.
  intros Hc. unfold zero_divisor. f_equal.
  induction (seq 1 n) as [|k l IH]; [done|]. cbn [existsb]. rewrite IH.
  f_equal. unfold zero_divisor_at. rewrite scaled_stage.
  cbn [price bought]. f_equal. by apply scaled_zero.
Qed.

(** X18.  In exact arithmetic the size of the base order sets the money
    and nothing else: multiplying [base_order] by any [c] other than zero
    leaves the outcome of the call (a grid or the exception) and, in every
    record, the label, the buy price, the average price, the take-profit
    target and the drop as they were. *)
Theorem base_order_scales_the_money_only (c : Fraction) :
  c <> 0 ->
  match run with
  | Ok g =>
      exists g',
        calculate_strategy base_price (c * base_order) safety_orders
          price_step volume_scale step_scale tp_pct = Ok g' /\
        length g' = length g /\
        forall (k : nat) (r r' : row Fraction),
          g !! k = Some r -> g' !! k = Some r' ->
          Step r' = Step r /\ Buy_Price r' = Buy_Price r /\
          Avg_Price r' = Avg_Price r /\ TP_Target r' = TP_Target r /\
          Drop_pct r' = Drop_pct r
  | Raise e =>
      calculate_strategy base_price (c * base_order) safety_orders
        price_step volume_scale step_scale tp_pct = Raise e
  end.
Proof.
  intros Hc. rewrite !calculate_strategy_run, scaled_zero_divisor by done.
  destruct (zero_divisor _ _ _ _ _ _); [done|].
  eexists. split; [done|]. split; [by rewrite !grid_length|].
  intros [|k] r r'.
  - by intros [= <-] [= <-].
  - intros [_ ->]%grid_lookup_so [_ ->]%grid_lookup_so.
    unfold so_row, average, take_profit. rewrite scaled_stage.
    cbn [Step Buy_Price Avg_Price TP_Target Drop_pct spent bought price].
    change (quot (c * spent (stage (S k))) (c * bought (stage (S k))))
      with ((c * spent (stage (S k))) / (c * bought (stage (S k)))).
    by rewrite scaled_quot.
Qed.

End ExactGrid.

(** ** The further theorems at concrete parameters *)

Section MoreExamples.
Import Float.

(** The parameters of scenario A as the page holds them *)
Definition scenario_A_params : parameters float :=
  Parameters float (dec 50000 0) (dec 100 0) 2 (dec 2 0) (dec 15 1)
    (dec 11 1) (dec 15 1).

(** An entry saved from scenario A *)
Definition scenario_A_saved : saved float :=
  Saved "2026-01-01 00:00:00" scenario_A_params scenario_A_rows.

(** [more_safety_orders_extend_the_grid]: scenario A with one safety order
    returns the first two records of scenario A. *)
Lemma one_safety_order_of_scenario_A :
  (1 <= 2)%Z /\
  calculate_strategy (T:=float) (dec 50000 0) (dec 100 0) 1 (dec 2 0)
    (dec 15 1) (dec 11 1) (dec 15 1) = Ok (take 2 scenario_A_rows).
Proof.
  assert (Hle : (1 <= 2)%Z) by lia. split; [exact Hle|].
  exact (proj1 (more_safety_orders_extend_the_grid (dec 50000 0) (dec 100 0)
                  (dec 2 0) (dec 15 1) (dec 11 1) (dec 15 1) 1 2 Hle)
           scenario_A_rows scenario_A_returns).
Defined.

(** [no_safety_orders]: a negative count gives the Base record alone. *)
Lemma negative_count_example :
  (-3 <= 0)%Z /\
  exists r,
    calculate_strategy (T:=float) (dec 50000 0) (dec 100 0) (-3) (dec 2 0)
      (dec 15 1) (dec 11 1) (dec 15 1) = Ok [r] /\
    Step r = "Base"%string.
Proof.
  assert (Hle : (-3 <= 0)%Z) by lia. split; [exact Hle|].
  rewrite (no_safety_orders (dec 50000 0) (dec 100 0) (dec 2 0) (dec 15 1)
             (dec 11 1) (dec 15 1) (-3) Hle).
  cbn [is_zero float_numeric]. eexists. split; [reflexivity|reflexivity].
Defined.

(** [summary_reads_the_deepest_stage] on scenario A: the total shown is
    475.00. *)
Lemma summary_of_scenario_A :
  exists r,
    iloc_last scenario_A_rows = Some r /\
    Total_Investment r = dec 47500 2.
Proof.
  destruct (summary_reads_the_deepest_stage (dec 50000 0) (dec 100 0)
              (dec 2 0) (dec 15 1) (dec 11 1) (dec 15 1) 2 scenario_A_rows
              scenario_A_returns) as (r & Hlast & _ & Htotal).
  exists r. split; [exact Hlast|]. rewrite Htotal. by vm_compute.
Defined.

(** [trigger_row_finds_the_stage] on scenario A: selecting "SO #1" shows
    the exit price 50136.09. *)
Lemma trigger_of_scenario_A :
  exists r,
    trigger_row scenario_A_rows "SO #1" = Some r /\
    TP_Target r = dec 5013609 2.
Proof.
  destruct (scenario_A_rows !! 1%nat) as [r|] eqn:Hr; [|discriminate Hr].
  destruct (trigger_row_finds_the_stage (dec 50000 0) (dec 100 0)
              (dec 2 0) (dec 15 1) (dec 11 1) (dec 15 1) 2 scenario_A_rows
              1 r scenario_A_returns Hr) as [_ Htrigger].
  injection Hr as <-. exists (Row "SO #1" (dec 4900000 2) (dec 15000 2)
    (dec 25000 2) (dec 4939516 2) (dec 5013609 2) (dec 200 2)).
  split; [exact Htrigger|reflexivity].
Defined.

(** [save_then_load_all]: saving scenario A into a new store. *)
Lemma save_then_load_scenario_A :
  exists data',
    DCABot.load_all_strategies
      (Json [("My Strategy"%string, Strategy scenario_A_saved)]) =
      Returns data' /\
    getitem "My Strategy" data' = Returns (Strategy scenario_A_saved).
Proof.
  destruct (save_then_load_all "2026-01-01 00:00:00" "My Strategy"
              scenario_A_params scenario_A_rows (Json []) _ eq_refl)
    as (data & data' & _ & Hload & Hget).
  exists data'. split; [exact Hload|]. exact (Hget "My Strategy"%string).
Defined.

(** [delete_then_load_all]: deleting the entry just saved, twice. *)
Lemma delete_scenario_A :
  DCABot.delete_strategy (T:=float) "My Strategy" (Json []) =
    Returns (false, Json []).
Proof.
  destruct (delete_then_load_all "My Strategy"
              (Json [("My Strategy"%string, Strategy scenario_A_saved)])
              (Json []) true eq_refl)
    as (data & data' & _ & _ & _ & _ & _ & Hagain).
  exact Hagain.
Defined.

(** [save_then_delete_file]: a save into the empty store, undone. *)
Lemma save_then_delete_scenario_A :
  exists f'',
    DCABot.delete_strategy "My Strategy"
      (Json [("My Strategy"%string, Strategy scenario_A_saved)]) =
      Returns (true, f'') /\
    f'' = Json [].
Proof.
  destruct (save_then_delete_file "2026-01-01 00:00:00" "My Strategy"
              scenario_A_params scenario_A_rows (Json []) _ eq_refl)
    as (data & f'' & Hload & Hdelete & _ & Hsame).
  exists f''. split; [exact Hdelete|].
  injection Hload as <-. exact (Hsame eq_refl).
Defined.

Lemma consistent_empty : consistent (T:=float) (Json []).
Proof. by intros data name strat [= <-]. Defined.

(** [page_keeps_the_store_consistent] from the empty store. *)
Lemma page_consistent_from_empty :
  consistent (T:=float) (Json []) /\
  forall now name p f',
    save_current now name p (Json []) = Returns f' ->
    consistent (T:=float) f'.
Proof.
  split; [exact consistent_empty|]. intros now name p f' Hsave.
  exact (proj1 (proj1 (page_keeps_the_store_consistent (Json [])
                         consistent_empty) now name p f' Hsave)).
Defined.

End MoreExamples.

Section MoreExactExamples.
Local Open Scope Qc_scope.

Abbreviation A_price := (Frac.frac 50000 1).
Abbreviation A_order := (Frac.frac 100 1).
Abbreviation A_step := (Frac.frac 2 1).
Abbreviation A_volume := (Frac.frac 3 2).
Abbreviation A_scale := (Frac.frac 11 10).
Abbreviation A_tp := (Frac.frac 3 2).

Lemma scenario_A_tp : 0 <= A_tp.
Proof. done. Defined.

(** [money_and_volume_grow] on scenario A: 250 < 475. *)
Lemma money_grows_in_scenario_A :
  valid A_price A_order 2 /\
  spent_at A_order A_volume 1 < spent_at A_order A_volume 2.
Proof.
  split; [exact scenario_A_valid|].
  destruct (money_and_volume_grow A_price A_order 2 A_step A_volume A_scale
              A_tp scenario_A_valid eq_refl eq_refl eq_refl eq_refl)
    as [Hgrow _].
  apply Hgrow. cbn. lia.
Defined.

(** [average_price_falls] on scenario A. *)
Lemma average_falls_in_scenario_A :
  valid A_price A_order 2 /\
  average_at A_price A_order A_step A_volume A_scale 2 <
  average_at A_price A_order A_step A_volume A_scale 1.
Proof.
  split; [exact scenario_A_valid|].
  destruct (average_price_falls A_price A_order 2 A_step A_volume A_scale
              A_tp scenario_A_valid eq_refl eq_refl eq_refl eq_refl)
    as [Hfall _].
  apply Hfall. cbn. lia.
Defined.

(** [take_profit_follows_the_average] on the Base record of scenario A. *)
Lemma take_profit_in_scenario_A :
  valid A_price A_order 2 /\ 0 <= A_tp /\
  forall r : row Fraction,
    grid A_price A_order A_step A_volume A_scale A_tp 2 !! 0%nat = Some r ->
    Avg_Price r <= TP_Target r.
Proof.
  split; [exact scenario_A_valid|]. split; [exact scenario_A_tp|].
  destruct (take_profit_follows_the_average A_price A_order 2 A_step
              A_volume A_scale A_tp scenario_A_valid eq_refl eq_refl
              eq_refl eq_refl scenario_A_tp) as [Habove _].
  exact (Habove 0%nat).
Defined.

(** [drop_grows_within_100] on scenario A. *)
Lemma drop_in_scenario_A :
  valid A_price A_order 2 /\
  drop_at A_price A_step A_scale 1 < drop_at A_price A_step A_scale 2 /\
  drop_at A_price A_step A_scale 2 <= Frac.of_int 100.
Proof.
  split; [exact scenario_A_valid|].
  destruct (drop_grows_within_100 A_price A_order 2 A_step A_volume A_scale
              A_tp scenario_A_valid eq_refl eq_refl eq_refl eq_refl)
    as (Hgrow & Hin & _).
  split; [apply Hgrow; cbn; lia|]. apply Hin. cbn. lia.
Defined.

(** [displayed_within_half_a_cent] on the Base record of scenario A. *)
Lemma base_record_within_half_a_cent :
  exists (g : list (row Fraction)) (r : row Fraction),
    scenario_A_exact = Ok g /\ g !! 0%nat = Some r /\
    Buy_Price r - A_price <= Frac.frac 1 200.
Proof.
  destruct scenario_A_exact as [g|e] eqn:Hrun.
  - pose proof (returned_base_row _ _ _ _ _ _ _ _ Hrun) as Hbase.
    exists g, (base_row A_price A_order A_tp).
    split; [reflexivity|]. split; [exact Hbase|].
    destruct (displayed_within_half_a_cent A_price A_order 2 A_step
                A_volume A_scale A_tp g 0%nat _ Hrun Hbase)
      as ((_ & Hprice) & _).
    exact Hprice.
  - vm_compute in Hrun. discriminate Hrun.
Defined.

Lemma two_not_zero : Frac.frac 2 1 <> 0.
Proof. done. Defined.

(** [base_order_scales_the_money_only]: scenario A with the base order
    doubled still returns a grid. *)
Lemma doubled_base_order :
  Frac.frac 2 1 <> 0 /\
  exists g',
    calculate_strategy A_price (Frac.frac 2 1 * A_order) 2 A_step A_volume
      A_scale A_tp = Ok g'.
Proof.
  split; [exact two_not_zero|].
  pose proof (base_order_scales_the_money_only A_price A_order 2 A_step
                A_volume A_scale A_tp (Frac.frac 2 1) two_not_zero) as W.
  destruct (calculate_strategy A_price A_order 2 A_step A_volume A_scale
              A_tp) as [g|e] eqn:Hrun.
  - destruct W as (g' & Hrun' & _). by exists g'.
  - vm_compute in Hrun. discriminate Hrun.
Defined.

End MoreExactExamples.
